(** * MRMap GPS connector: a shallow embedding of [main.pyw]

    The program listens for NMEA datagrams on a UDP socket, parses the first
    [$GPGGA] sentence of each datagram, projects the fix to OSGB36, decides
    with a distance / dwell-time policy whether the fix is worth reporting and
    posts it to an HTTP endpoint with bounded retry.

    The embedding follows the Python text function by function.  Python
    [float] is IEEE 754 binary64, modelled by the standard library's
    [spec_float] with its specified operations; Python [str] is modelled by
    [string] (code points below 256); exceptions, [print] / [logging] output
    and the calls into the outside world (clock, projection library, HTTP) are
    threaded through a small state-and-exception monad. *)

From Stdlib Require Import ZArith NArith PArith List Bool Ascii String Lia.
From Stdlib Require Import Floats.SpecFloat.
Import ListNotations.

Local Open Scope string_scope.
Local Open Scope list_scope.
Local Open Scope Z_scope.

(* ================================================================== *)
(** * Python strings *)
(* ================================================================== *)

Module PyStr.

(** [s.startswith(p)]. *)
Definition startswith (s p : string) : bool := String.prefix p s.

(** Code points below 256 for which [str.isspace] holds; this is the set
    that [str.strip()] removes. *)
Definition isspace (c : ascii) : bool :=
  let n := N_of_ascii c in
  ((9 <=? n) && (n <=? 13) || (28 <=? n) && (n <=? 32)
   || (n =? 133) || (n =? 160))%N.

(** Drops the leading characters that satisfy [p]. *)
Fixpoint drop_while (p : ascii -> bool) (s : string) : string :=
  match s with
  | String c s' => if p c then drop_while p s' else s
  | EmptyString => EmptyString
  end.

(** Drops the trailing characters that satisfy [p]: a character is kept as
    soon as something that is kept follows it. *)
Fixpoint drop_while_end (p : ascii -> bool) (s : string) : string :=
  match s with
  | EmptyString => EmptyString
  | String c s' =>
      match drop_while_end p s' with
      | EmptyString => if p c then EmptyString else String c EmptyString
      | r => String c r
      end
  end.

(** [s.strip()]. *)
Definition strip (s : string) : string :=
  drop_while_end isspace (drop_while isspace s).

(** [s.split(sep)] for a one-character separator: the fields between the
    separators, empty fields included; never the empty list. *)
Fixpoint split (sep : ascii) (s : string) : list string :=
  match s with
  | EmptyString => [EmptyString]
  | String c s' =>
      if Ascii.eqb c sep then EmptyString :: split sep s'
      else match split sep s' with
           | f :: fs => String c f :: fs
           | [] => [String c EmptyString]
           end
  end.

(** [s[:n]]. *)
Fixpoint take (n : nat) (s : string) : string :=
  match n, s with
  | S n', String c s' => String c (take n' s')
  | _, _ => EmptyString
  end.

(** [s[n:]]. *)
Fixpoint drop (n : nat) (s : string) : string :=
  match n, s with
  | S n', String _ s' => drop n' s'
  | _, _ => s
  end.

Fixpoint map (f : ascii -> ascii) (s : string) : string :=
  match s with
  | EmptyString => EmptyString
  | String c s' => String (f c) (map f s')
  end.

Definition newline : ascii := ascii_of_nat 10.
Definition comma : ascii := ","%char.

End PyStr.

(* ================================================================== *)
(** * Python floats: IEEE 754 binary64 *)
(* ================================================================== *)

Module PyFloat.

Definition prec : Z := 53.
Definition emax : Z := 1024.

Definition float : Type := spec_float.

Definition add : float -> float -> float := SFadd prec emax.
Definition sub : float -> float -> float := SFsub prec emax.
Definition mul : float -> float -> float := SFmul prec emax.
(** IEEE division; Python's [/] raises [ZeroDivisionError] on a zero
    divisor, the program only divides by the non-zero constants 2 and 60. *)
Definition div : float -> float -> float := SFdiv prec emax.
Definition neg : float -> float := SFopp.
Definition fabs : float -> float := SFabs.
Definition c_sqrt : float -> float := SFsqrt prec emax.

Definition ltb : float -> float -> bool := SFltb.
Definition leb : float -> float -> bool := SFleb.
Definition eqb : float -> float -> bool := SFeqb.

Definition is_nan (x : float) : bool :=
  match x with S754_nan => true | _ => false end.
Definition is_inf (x : float) : bool :=
  match x with S754_infinity _ => true | _ => false end.
Definition is_finite (x : float) : bool :=
  match x with S754_zero _ | S754_finite _ _ _ => true | _ => false end.
Definition is_zero (x : float) : bool :=
  match x with S754_zero _ => true | _ => false end.
(** [copysign(1., x) == 1.] *)
Definition sign_positive (x : float) : bool :=
  match x with
  | S754_zero s | S754_infinity s | S754_finite s _ _ => negb s
  | S754_nan => true
  end.
Definition copysign (x y : float) : float :=
  if sign_positive y then SFabs x else SFopp (SFabs x).

(** A representable binary64 value. *)
Definition valid (x : float) : bool := valid_binary prec emax x.

Definition zero : float := S754_zero false.
Definition infinity : float := S754_infinity false.
Definition nan : float := S754_nan.

(** Conversion of a Python [int] operand in mixed arithmetic (round to
    nearest even; the program only converts the small constants 1, 2, 60
    and 6371000, which are exact). *)
Definition of_int (z : Z) : float := binary_normalize prec emax z 0 false.

Definition one : float := of_int 1.
Definition two : float := of_int 2.

(** Comparison of a float with a Python [int]: exact, by value; [None]
    when the float is a NaN (every ordered comparison is then false). *)
Definition compare_int (x : float) (z : Z) : option comparison :=
  match x with
  | S754_nan => None
  | S754_infinity s => Some (if s then Lt else Gt)
  | S754_zero _ => Some (0 ?= z)
  | S754_finite s m e =>
      let v := cond_Zopp s (Zpos m) in
      Some (if 0 <=? e then (v * 2 ^ e ?= z) else (v ?= z * 2 ^ (- e)))
  end.

(** [x > z] *)
Definition gt_int (x : float) (z : Z) : bool :=
  match compare_int x z with Some Gt => true | _ => false end.
(** [x >= z] *)
Definition ge_int (x : float) (z : Z) : bool :=
  match compare_int x z with Some (Gt | Eq) => true | _ => false end.
(** [x <= z] *)
Definition le_int (x : float) (z : Z) : bool :=
  match compare_int x z with Some (Lt | Eq) => true | _ => false end.

(** The value of [math.floor] on a finite float. *)
Definition floor_finite (s : bool) (m : positive) (e : Z) : Z :=
  let v := cond_Zopp s (Zpos m) in
  if 0 <=? e then v * 2 ^ e else Z.shiftr v (- e).

(** Correctly rounded value of the decimal [d * 10 ^ e10], as the string
    conversion of CPython ([strtod]) computes it; overflow gives infinity. *)
Definition of_decimal (d : N) (e10 : Z) : float :=
  match d with
  | N0 => S754_zero false
  | Npos m =>
      match e10 with
      | Zneg k =>
          SFdiv prec emax (S754_finite false m 0)
                          (S754_finite false (Pos.pow 10 k) 0)
      | _ => binary_round prec emax false (m * Z.to_pos (10 ^ e10)) 0
      end
  end.

(** [math.pi] and the constant of [math.radians], [math.pi / 180.0]. *)
Definition pi : float := S754_finite false 7074237752028440 (-51).
Definition degToRad : float := S754_finite false 5030569068109113 (-58).

(** ** [float(s)] on a string

    CPython's [float_from_string]: characters outside ASCII are mapped to a
    space (white space) or to [?]; single underscores between digits are
    removed; ASCII white space is stripped on both sides; what remains must be
    an optionally signed [inf], [infinity], [nan] or decimal literal.  [None]
    stands for the [ValueError] the conversion raises. *)

Definition is_digit (c : ascii) : bool :=
  let n := N_of_ascii c in ((48 <=? n) && (n <=? 57))%N.

Definition digit_val (c : ascii) : N := (N_of_ascii c - 48)%N.

(** [Py_ISSPACE] *)
Definition is_c_space (c : ascii) : bool :=
  let n := N_of_ascii c in ((9 <=? n) && (n <=? 13) || (n =? 32))%N.

Definition to_ascii (c : ascii) : ascii :=
  if (N_of_ascii c <? 128)%N then c
  else if PyStr.isspace c then " "%char else "?"%char.

Definition to_lower (c : ascii) : ascii :=
  let n := N_of_ascii c in
  if ((65 <=? n) && (n <=? 90))%N then ascii_of_N (n + 32) else c.

Definition is_underscore (c : ascii) : bool := Ascii.eqb c "_"%char.

(** Underscores are only allowed after a digit and before a digit. *)
Fixpoint strip_underscores (prev : ascii) (s : string) : option string :=
  match s with
  | EmptyString => if is_underscore prev then None else Some EmptyString
  | String c s' =>
      if is_underscore c then
        if is_digit prev then strip_underscores c s' else None
      else if is_underscore prev && negb (is_digit c) then None
      else option_map (String c) (strip_underscores c s')
  end.

Definition read_sign (s : string) : bool * string :=
  match s with
  | String c s' =>
      if Ascii.eqb c "-"%char then (true, s')
      else if Ascii.eqb c "+"%char then (false, s')
      else (false, s)
  | EmptyString => (false, s)
  end.

(** Reads a run of decimal digits, accumulating their value onto [acc] and
    counting them. *)
Fixpoint read_digits (s : string) (acc : N) (n : nat) : N * nat * string :=
  match s with
  | String c s' =>
      if is_digit c then read_digits s' (10 * acc + digit_val c)%N (S n)
      else (acc, n, s)
  | EmptyString => (acc, n, s)
  end.

(** What may follow the mantissa: nothing, or [e] / [E], an optional sign and
    at least one digit, up to the end of the string. *)
Definition parse_exponent (s : string) : option Z :=
  match s with
  | EmptyString => Some 0
  | String c s' =>
      if Ascii.eqb (to_lower c) "e"%char then
        let (negative, s'') := read_sign s' in
        let '(v, n, rest) := read_digits s'' 0%N 0%nat in
        match n, rest with
        | S _, EmptyString => Some (if negative then - Z.of_N v else Z.of_N v)
        | _, _ => None
        end
      else None
  end.

(** An unsigned decimal literal as the pair [(d, e)] of the value [d * 10^e]. *)
Definition parse_decimal (s : string) : option (N * Z) :=
  let '(ip, n1, r1) := read_digits s 0%N 0%nat in
  let '(m, n2, r2) :=
    match r1 with
    | String c r => if Ascii.eqb c "."%char then read_digits r ip 0%nat
                    else (ip, 0%nat, r1)
    | EmptyString => (ip, 0%nat, r1)
    end in
  match (n1 + n2)%nat with
  | O => None
  | S _ =>
      match parse_exponent r2 with
      | Some e => Some (m, e - Z.of_nat n2)
      | None => None
      end
  end.

Definition parse_inf_or_nan (s : string) : option float :=
  let l := PyStr.map to_lower s in
  if String.eqb l "inf" || String.eqb l "infinity" then Some infinity
  else if String.eqb l "nan" then Some nan
  else None.

Definition float_of_str (s : string) : option float :=
  match strip_underscores Ascii.zero (PyStr.map to_ascii s) with
  | None => None
  | Some t =>
      let t := PyStr.drop_while_end is_c_space (PyStr.drop_while is_c_space t) in
      let (negative, body) := read_sign t in
      let signed (v : float) := if negative then neg v else v in
      match parse_inf_or_nan body with
      | Some v => Some (signed v)
      | None =>
          match parse_decimal body with
          | Some (d, e) => Some (signed (of_decimal d e))
          | None => None
          end
      end
  end.

End PyFloat.

Import PyFloat.

(* ================================================================== *)
(** * Exceptions, output and the outside world *)
(* ================================================================== *)

(** The classes of [requests.exceptions]; all derive from
    [RequestException]. *)
Inductive requests_exception :=
| RequestException
| HTTPError
| ConnectionError
| ProxyError
| SSLError
| Timeout
| ConnectTimeout
| ReadTimeout
| URLRequired
| TooManyRedirects
| MissingSchema
| InvalidSchema
| InvalidURL
| InvalidHeader
| ChunkedEncodingError
| ContentDecodingError
| RetryError.

(** [isinstance(e, HTTPError)], and so on: the class itself or a subclass.
    [ConnectTimeout] derives from both [ConnectionError] and [Timeout]. *)
Definition is_HTTPError (e : requests_exception) : bool :=
  match e with HTTPError => true | _ => false end.

Definition is_ConnectionError (e : requests_exception) : bool :=
  match e with
  | ConnectionError | ProxyError | SSLError | ConnectTimeout => true
  | _ => false
  end.

Definition is_Timeout (e : requests_exception) : bool :=
  match e with Timeout | ConnectTimeout | ReadTimeout => true | _ => false end.

(** The exceptions the program can meet; all derive from [Exception]. *)
Inductive exn :=
| TypeError
| ValueError
| IndexError
| OverflowError
| UnicodeDecodeError
| ProjError                      (* raised inside pyproj *)
| Requests (e : requests_exception)
| OtherError.                    (* any other exception of a library *)

(** The form fields of the report. *)
Record payload := {
  payload_x : Z;
  payload_y : Z;
  payload_radioId : string;
  payload_validFor : string;
  payload_token : string
}.

(** The texts the program writes, by the statement that writes them. *)
Inductive message :=
| MsgErrorConverting (e : exn)
| MsgUnsupported (sentence : string)
| MsgErrorParsing (e : exn)
| MsgErrorHaversine (e : exn)
| MsgApiSuccessful (text : string)
| MsgHttpError (e : requests_exception)
| MsgErrorConnecting (e : requests_exception)
| MsgTimeoutError (e : requests_exception)
| MsgRequestError (e : requests_exception)
| MsgRetrying (attempt max_retries : Z)
| MsgMaxRetriesReached
| MsgListening (host : string) (port : Z)
| MsgTimeSince (seconds : Z)
| MsgHasMoved (flag : bool)
| MsgMakingRequest (p : payload)
| MsgMakingRequestStationary (p : payload).

(** What the process does to the outside, in order. *)
Inductive event :=
| EvPrint (m : message)                               (* print *)
| EvLogInfo (m : message)                             (* logging.info *)
| EvTransform (xx yy : PyFloat.float)                 (* pyproj transform *)
| EvTime (t : PyFloat.float)                          (* time.time() gave t *)
| EvPost (url : string) (p : payload) (timeout : Z)   (* requests.post *)
| EvSleep (seconds : Z).                              (* time.sleep *)

Inductive outcome (A : Type) :=
| Ret (a : A)
| Raise (e : exn).
Arguments Ret {A} a.
Arguments Raise {A} e.

(** What [requests.post] does: it returns a response or raises. *)
Inductive post_reply :=
| Response (status_code : Z) (text : string)
| PostRaises (e : exn).

(** The outside world: the successive readings of the clock, the replies to
    the successive POST requests, and the projection library. *)
Record env := {
  env_time : nat -> PyFloat.float;
  env_post : nat -> post_reply;
  env_transform :
    PyFloat.float -> PyFloat.float -> outcome (PyFloat.float * PyFloat.float)
}.

(** The part of the run that the program has behind it: what it has emitted,
    and how many clock readings and POST requests it has consumed. *)
Record world := {
  trace : list event;
  n_time : nat;
  n_post : nat
}.

Definition world0 : world := {| trace := []; n_time := 0; n_post := 0 |}.

(** ** The monad of Python statements *)

Definition Py (A : Type) : Type := world -> outcome A * world.

Definition ret {A} (a : A) : Py A := fun w => (Ret a, w).

Definition raise {A} (e : exn) : Py A := fun w => (Raise e, w).

Definition bind {A B} (m : Py A) (k : A -> Py B) : Py B :=
  fun w =>
    match m w with
    | (Ret a, w') => k a w'
    | (Raise e, w') => (Raise e, w')
    end.

Notation "x <- m ;; k" := (bind m (fun x => k))
  (at level 61, m at next level, right associativity).
Notation "' pat <- m ;; k" := (bind m (fun x => match x with pat => k end))
  (at level 61, pat pattern, m at next level, right associativity).
Notation "m ;; k" := (bind m (fun _ => k))
  (at level 61, right associativity).

(** [try: m  except ...: h]: the handler [h] gives the clause that catches
    the exception, or [None] when no clause does. *)
Definition try_except {A} (m : Py A) (h : exn -> option (Py A)) : Py A :=
  fun w =>
    match m w with
    | (Ret a, w') => (Ret a, w')
    | (Raise e, w') =>
        match h e with
        | Some handler => handler w'
        | None => (Raise e, w')
        end
    end.

Definition emit (ev : event) : Py unit :=
  fun w => (Ret tt, {| trace := trace w ++ [ev];
                       n_time := n_time w; n_post := n_post w |}).

Definition print (m : message) : Py unit := emit (EvPrint m).
Definition logging_info (m : message) : Py unit := emit (EvLogInfo m).

Definition lift {A} (o : outcome A) : Py A := fun w => (o, w).

(** [float(s)] *)
Definition float (s : string) : Py PyFloat.float :=
  match float_of_str s with
  | Some v => ret v
  | None => raise ValueError
  end.

(** [l[i]] *)
Definition index {A} (l : list A) (i : nat) : Py A :=
  match nth_error l i with
  | Some a => ret a
  | None => raise IndexError
  end.

(** [a, b = v]: unpacking [None] is a [TypeError]. *)
Definition unpack {A} (v : option A) : Py A :=
  match v with
  | Some a => ret a
  | None => raise TypeError
  end.

(** [range(lo, hi)] *)
Fixpoint range_from (lo : Z) (len : nat) : list Z :=
  match len with
  | O => []
  | S len' => lo :: range_from (lo + 1) len'
  end.

Definition range (lo hi : Z) : list Z := range_from lo (Z.to_nat (hi - lo)).

(** ** The [math] module

    [sin], [cos], [atan2] and [pow] of the C library are not specified bit
    for bit; they are parameters.  CPython's wrappers around them are
    modelled as they are written in [mathmodule.c] and [floatobject.c]. *)
Class Libm := {
  c_sin : PyFloat.float -> PyFloat.float;
  c_cos : PyFloat.float -> PyFloat.float;
  c_atan2 : PyFloat.float -> PyFloat.float -> PyFloat.float;
  c_pow : PyFloat.float -> PyFloat.float -> PyFloat.float
}.

(** [math_1]: a NaN result from a non-NaN argument, or an infinite result
    from a finite argument, is an error. *)
Definition math_1 (func : PyFloat.float -> PyFloat.float) (can_overflow : bool)
    (x : PyFloat.float) : Py PyFloat.float :=
  let r := func x in
  if is_nan r && negb (is_nan x) then raise ValueError
  else if is_inf r && is_finite x then
    raise (if can_overflow then OverflowError else ValueError)
  else ret r.

(** [math.floor] *)
Definition math_floor (x : PyFloat.float) : Py Z :=
  match x with
  | S754_nan => raise ValueError
  | S754_infinity _ => raise OverflowError
  | S754_zero _ => ret 0
  | S754_finite s m e => ret (floor_finite s m e)
  end.

(** [math.radians] *)
Definition radians (x : PyFloat.float) : PyFloat.float := mul x degToRad.

Section Math.
Context {libm : Libm}.

Definition math_sin : PyFloat.float -> Py PyFloat.float := math_1 c_sin false.
Definition math_cos : PyFloat.float -> Py PyFloat.float := math_1 c_cos false.
Definition math_sqrt : PyFloat.float -> Py PyFloat.float := math_1 c_sqrt false.

(** [math.atan2], CPython's [m_atan2]: the special cases are decided before
    the C library is called. *)
Definition math_atan2 (y x : PyFloat.float) : PyFloat.float :=
  if is_nan x || is_nan y then nan
  else if is_inf y then
    if is_inf x then
      if sign_positive x then copysign (mul (of_decimal 25 (-2)) pi) y
      else copysign (mul (of_decimal 75 (-2)) pi) y
    else copysign (mul (of_decimal 5 (-1)) pi) y
  else if is_inf x || is_zero y then
    if sign_positive x then copysign zero y else copysign pi y
  else c_atan2 y x.

(** [v ** 2] for a float [v], CPython's [float_pow] at the exponent 2.0:
    NaN, infinities, zeros and 1.0 are decided first, then the C library's
    [pow] is called on the absolute value; an infinite result is an
    [OverflowError]. *)
Definition float_pow_2 (iv : PyFloat.float) : Py PyFloat.float :=
  if is_nan iv then ret iv
  else if is_inf iv then ret (fabs iv)
  else if is_zero iv then ret zero
  else
    let iv := fabs iv in
    if eqb iv one then ret one
    else
      let ix := c_pow iv two in
      if is_inf ix then raise OverflowError else ret ix.

End Math.

(* ================================================================== *)
(** * The program *)
(* ================================================================== *)

(** The values [main] reads from [config.ini]. *)
Record config := {
  radio_id : string;
  config_token : string;
  host : string;
  port : Z;
  api_url : string;
  moving_time_limit : Z;
  stationary_time_limit : Z;
  distance_limit : Z
}.

(** The two variables that [main] carries from one iteration to the next. *)
Record state := {
  previous_position : PyFloat.float * PyFloat.float;
  last_request_time : PyFloat.float
}.

(** [s.recv(1024).decode('utf-8')]: the text of the datagram, when its bytes
    are UTF-8. *)
Inductive datagram :=
| Text (data : string)
| Undecodable.

(** How an iteration of [while True] ends. *)
Inductive control := Continue | Break.

Definition VALID_FOR_DURATION : string := "360".

Definition GPGGA : string := "$GPGGA".

(** Any exception is caught ([except Exception]). *)
Definition except_Exception {A} (handler : exn -> Py A) : exn -> option (Py A) :=
  fun e => Some (handler e).

Section Program.
Context {libm : Libm}.
Variable E : env.

(** [time.time()] *)
Definition time_time : Py PyFloat.float :=
  fun w =>
    let t := env_time E (n_time w) in
    (Ret t, {| trace := trace w ++ [EvTime t];
               n_time := S (n_time w); n_post := n_post w |}).

(** [time.sleep(seconds)] *)
Definition time_sleep (seconds : Z) : Py unit := emit (EvSleep seconds).

(** [requests.post(url, data=payload, timeout=timeout)] *)
Definition requests_post (url : string) (p : payload) (timeout : Z)
  : Py (Z * string) :=
  fun w =>
    let w' := {| trace := trace w ++ [EvPost url p timeout];
                 n_time := n_time w; n_post := S (n_post w) |} in
    match env_post E (n_post w) with
    | Response status_code text => (Ret (status_code, text), w')
    | PostRaises e => (Raise e, w')
    end.

(** [response.raise_for_status()] *)
Definition raise_for_status (response : Z * string) : Py unit :=
  let status_code := fst response in
  if (400 <=? status_code) && (status_code <? 600)
  then raise (Requests HTTPError)
  else ret tt.

(** The calls into pyproj of [convert_to_osgb36]: the two [CRS.from_epsg],
    [Transformer.from_crs] and [transformer.transform]. *)
Definition pyproj_transform (xx yy : PyFloat.float)
  : Py (PyFloat.float * PyFloat.float) :=
  emit (EvTransform xx yy) ;; lift (env_transform E xx yy).

Definition convert_to_osgb36 (latitude longitude : PyFloat.float)
  : Py (option (PyFloat.float * PyFloat.float)) :=
  try_except
    ('(easting, northing) <- pyproj_transform longitude latitude ;;
     ret (Some (easting, northing)))
    (except_Exception (fun e =>
       print (MsgErrorConverting e) ;;
       ret None)).

Definition filter_nmea_sentence (sentence : string) : string :=
  (* Split the block into lines *)
  let nmea_lines := PyStr.split PyStr.newline (PyStr.strip sentence) in
  (* Find the first GPGGA sentence, or return an empty string if not found *)
  match List.find (fun line => PyStr.startswith line GPGGA) nmea_lines with
  | Some line => line
  | None => ""%string
  end.

Definition parse_nmea_sentence (sentence : string)
  : Py (option (PyFloat.float * PyFloat.float * PyFloat.float)) :=
  try_except
    (if String.eqb sentence "" then ret None
     else if PyStr.startswith sentence GPGGA then
       let data := PyStr.split PyStr.comma sentence in
       (* Extract latitude *)
       d2 <- index data 2 ;;
       lat_deg <- float (PyStr.take 2 d2) ;;
       d2' <- index data 2 ;;
       lat_min <- float (PyStr.drop 2 d2') ;;
       let latitude := add lat_deg (div lat_min (of_int 60)) in
       d3 <- index data 3 ;;
       let latitude := if String.eqb d3 "S" then neg latitude else latitude in
       (* Extract longitude *)
       d4 <- index data 4 ;;
       lon_deg <- float (PyStr.take 3 d4) ;;
       d4' <- index data 4 ;;
       lon_min <- float (PyStr.drop 3 d4') ;;
       let longitude := add lon_deg (div lon_min (of_int 60)) in
       d5 <- index data 5 ;;
       let longitude := if String.eqb d5 "W" then neg longitude else longitude in
       (* Extract accuracy *)
       d8 <- index data 8 ;;
       accuracy <- float d8 ;;
       ret (Some (latitude, longitude, accuracy))
     else
       print (MsgUnsupported sentence) ;;
       ret None)
    (fun e =>
       match e with
       | IndexError | ValueError =>
           Some (print (MsgErrorParsing e) ;; ret None)
       | _ => None
       end).

Definition haversine_distance (coord1 coord2 : PyFloat.float * PyFloat.float)
  : Py (option PyFloat.float) :=
  try_except
    (let '(lat1, lon1) := (radians (fst coord1), radians (snd coord1)) in
     let '(lat2, lon2) := (radians (fst coord2), radians (snd coord2)) in
     let dlat := sub lat2 lat1 in
     let dlon := sub lon2 lon1 in
     sin_dlat <- math_sin (div dlat (of_int 2)) ;;
     sin_dlat_2 <- float_pow_2 sin_dlat ;;
     cos_lat1 <- math_cos lat1 ;;
     cos_lat2 <- math_cos lat2 ;;
     sin_dlon <- math_sin (div dlon (of_int 2)) ;;
     sin_dlon_2 <- float_pow_2 sin_dlon ;;
     let a := add sin_dlat_2 (mul (mul cos_lat1 cos_lat2) sin_dlon_2) in
     sqrt_a <- math_sqrt a ;;
     sqrt_1_a <- math_sqrt (sub (of_int 1) a) ;;
     let c := mul (of_int 2) (math_atan2 sqrt_a sqrt_1_a) in
     let earth_radius_meters := 6371000 in
     let distance := mul (of_int earth_radius_meters) c in
     ret (Some distance))
    (except_Exception (fun e =>
       print (MsgErrorHaversine e) ;;
       ret None)).

Definition has_moved (previous_position current_position : PyFloat.float * PyFloat.float)
    (threshold_distance : Z) : Py bool :=
  (* Calculate the distance using the Haversine formula *)
  distance <- haversine_distance previous_position current_position ;;
  match distance with
  | Some d => ret (gt_int d threshold_distance)
  | None => raise TypeError          (* None > int *)
  end.

(** The body of the [for] loop of [make_api_request_with_retry], over the
    values of [attempt] that remain.  Inside, [Some b] stands for [return b]
    and [None] for falling out of the [try] statement. *)
Fixpoint retry_loop (api_url : string) (p : payload)
    (max_retries timeout_seconds : Z) (attempts : list Z) : Py bool :=
  match attempts with
  | [] =>
      print MsgMaxRetriesReached ;;
      ret false                     (* Request failed after max retries *)
  | attempt :: attempts' =>
      returned <-
        try_except
          (response <- requests_post api_url p timeout_seconds ;;
           raise_for_status response ;;
           print (MsgApiSuccessful (snd response)) ;;
           ret (Some true))         (* Request succeeded, exit the loop *)
          (fun e =>
             match e with
             | Requests r =>
                 if is_HTTPError r then
                   Some (print (MsgHttpError r) ;; ret (Some true))
                 else if is_ConnectionError r then
                   Some (print (MsgErrorConnecting r) ;; ret None)
                 else if is_Timeout r then
                   Some (print (MsgTimeoutError r) ;; ret None)
                 else
                   Some (print (MsgRequestError r) ;; ret (Some true))
             | _ => None
             end) ;;
      match returned with
      | Some b => ret b
      | None =>
          (if attempt <? max_retries then
             print (MsgRetrying attempt max_retries) ;;
             time_sleep 2           (* Add a short delay before retrying *)
           else ret tt) ;;
          retry_loop api_url p max_retries timeout_seconds attempts'
      end
  end.

Definition make_api_request_with_retry (api_url : string) (p : payload)
    (max_retries timeout_seconds : Z) : Py bool :=
  retry_loop api_url p max_retries timeout_seconds (range 1 (max_retries + 1)).

(** The defaults of [max_retries] and [timeout_seconds], which [main] uses. *)
Definition default_max_retries : Z := 1.
Definition default_timeout_seconds : Z := 10.

Definition decode (d : datagram) : Py string :=
  match d with
  | Text data => ret data
  | Undecodable => raise UnicodeDecodeError
  end.

(** One iteration of the [while True] loop of [main]: from [s.recv] to the
    end of the body. *)
Definition loop_body (cfg : config) (st : state) (d : datagram)
  : Py (control * state) :=
  data <- decode d ;;
  if String.eqb data "" then ret (Break, st)
  else
    parsed_data <- parse_nmea_sentence (filter_nmea_sentence data) ;;
    match parsed_data with
    | Some (latitude, longitude, accuracy) =>
        if le_int accuracy 100 then
          converted <- convert_to_osgb36 latitude longitude ;;
          '(easting, northing) <- unpack converted ;;
          easting <- math_floor easting ;;
          northing <- math_floor northing ;;
          has_moved_flag <-
            has_moved (previous_position st) (latitude, longitude)
                      (distance_limit cfg) ;;
          current_time <- time_time ;;
          let time_since_last_request :=
            sub current_time (last_request_time st) in
          seconds <- math_floor time_since_last_request ;;
          logging_info (MsgTimeSince seconds) ;;
          logging_info (MsgHasMoved has_moved_flag) ;;
          if has_moved_flag then
            if ge_int time_since_last_request (moving_time_limit cfg) then
              let p := {| payload_x := easting; payload_y := northing;
                          payload_radioId := radio_id cfg;
                          payload_validFor := VALID_FOR_DURATION;
                          payload_token := config_token cfg |} in
              logging_info (MsgMakingRequest p) ;;
              result <- make_api_request_with_retry (api_url cfg) p
                          default_max_retries default_timeout_seconds ;;
              if result then
                ret (Continue,
                     {| previous_position := (latitude, longitude);
                        last_request_time := current_time |})
              else ret (Continue, st)
            else ret (Continue, st)
          else if ge_int time_since_last_request (stationary_time_limit cfg) then
            let p := {| payload_x := easting; payload_y := northing;
                        payload_radioId := radio_id cfg;
                        payload_validFor := VALID_FOR_DURATION;
                        payload_token := config_token cfg |} in
            logging_info (MsgMakingRequestStationary p) ;;
            result <- make_api_request_with_retry (api_url cfg) p
                        default_max_retries default_timeout_seconds ;;
            if result then
              ret (Continue,
                   {| previous_position := (latitude, longitude);
                      last_request_time := current_time |})
            else ret (Continue, st)
          else ret (Continue, st)
        else ret (Continue, st)
    | None => ret (Continue, st)
    end.

(** The [while True] loop over the datagrams that arrive, in order. *)
Fixpoint listen (cfg : config) (st : state) (datagrams : list datagram)
  : Py state :=
  match datagrams with
  | [] => ret st
  | d :: rest =>
      '(ctl, st') <- loop_body cfg st d ;;
      match ctl with
      | Break => ret st'
      | Continue => listen cfg st' rest
      end
  end.

(** [main], after the single-instance check and the reading of the
    configuration. *)
Definition main (cfg : config) (datagrams : list datagram) : Py state :=
  let previous_position := (zero, zero) in
  last_request_time <- time_time ;;
  logging_info (MsgListening (host cfg) (port cfg)) ;;
  listen cfg {| previous_position := previous_position;
                last_request_time := last_request_time |} datagrams.

End Program.

(* ================================================================== *)
(** * Vocabulary of the statements *)
(* ================================================================== *)

(** ** Worlds and events *)

(** The world [w] after the events [evs], [times] more clock readings and
    [posts] more POST requests. *)
Definition advance (w : world) (evs : list event) (times posts : nat) : world :=
  {| trace := trace w ++ evs;
     n_time := n_time w + times;
     n_post := n_post w + posts |}.

Definition is_post (ev : event) : bool :=
  match ev with EvPost _ _ _ => true | _ => false end.

Definition is_network (ev : event) : bool :=
  match ev with EvPost _ _ _ | EvSleep _ => true | _ => false end.

Definition is_print (ev : event) : bool :=
  match ev with EvPrint _ => true | _ => false end.

Definition is_time (ev : event) : bool :=
  match ev with EvTime _ => true | _ => false end.

(** The diagnostics that [parse_nmea_sentence] prints. *)
Definition is_parse_print (ev : event) : bool :=
  match ev with
  | EvPrint (MsgUnsupported _) | EvPrint (MsgErrorParsing _) => true
  | _ => false
  end.

(** ** Computations that leave the world alone *)

(** [m] has the outcome [o] in every world and changes nothing. *)
Definition pure_as {A} (m : Py A) (o : outcome A) : Prop :=
  forall w, m w = (o, w).

(** [m] is such a computation, and the only exceptions it can raise are
    those of [allowed]. *)
Definition confined {A} (allowed : exn -> bool) (m : Py A) : Prop :=
  exists o, pure_as m o /\
            match o with Raise e => allowed e = true | Ret _ => True end.

Definition any_exn (e : exn) : bool := true.

(** What [parse_nmea_sentence] catches. *)
Definition parse_error (e : exn) : bool :=
  match e with IndexError | ValueError => true | _ => false end.

(** What the [math] module raises: a domain error or an overflow. *)
Definition math_error (e : exn) : bool :=
  match e with ValueError | OverflowError => true | _ => false end.

(** The exceptions of [requests]. *)
Definition is_requests (e : exn) : bool :=
  match e with Requests _ => true | _ => false end.

(** ** Signs of floats *)

(** [+0.0], a positive finite float or [+inf]: the sign bit is clear and the
    float is not a NaN. *)
Definition nonneg (v : PyFloat.float) : bool :=
  match v with
  | S754_zero false | S754_infinity false | S754_finite false _ _ => true
  | _ => false
  end.


(** ** What is assumed of the C library

    Annex F of the C standard gives [sin(+0) = +0]; the cosine of a finite
    argument is a binary64 value between -1 and 1. *)
Record C99 (libm : Libm) : Prop := {
  sin_zero : c_sin zero = zero;
  cos_range : forall v, is_finite v = true ->
                        valid (c_cos v) = true /\ leb (fabs (c_cos v)) one = true
}.

(** ** The shape of a GPGGA sentence *)

Fixpoint all_digits (s : string) : bool :=
  match s with
  | EmptyString => true
  | String c s' => is_digit c && all_digits s'
  end.

(** What may follow the first digit of an unsigned decimal: more digits,
    then possibly a point and digits. *)
Fixpoint digits_then_fraction (s : string) : bool :=
  match s with
  | EmptyString => true
  | String c s' =>
      if Ascii.eqb c "."%char then all_digits s'
      else is_digit c && digits_then_fraction s'
  end.

(** An unsigned decimal number: at least one digit, then possibly a point
    and digits, as in [07.038]. *)
Definition unsigned_decimal (s : string) : bool :=
  match s with
  | String c s' => is_digit c && digits_then_fraction s'
  | EmptyString => false
  end.

(** Digits and points: the characters of an unsigned decimal. *)
Fixpoint plain (s : string) : bool :=
  match s with
  | EmptyString => true
  | String c s' => (is_digit c || Ascii.eqb c ".") && plain s'
  end.

(** A latitude field [ddmm.mmmm]: two digits of degrees, then the minutes. *)
Definition is_ddmm (s : string) : bool :=
  match s with
  | String d1 (String d2 minutes) =>
      is_digit d1 && is_digit d2 && unsigned_decimal minutes
  | _ => false
  end.

(** A longitude field [dddmm.mmmm]: three digits of degrees, then the
    minutes. *)
Definition is_dddmm (s : string) : bool :=
  match s with
  | String d1 (String d2 (String d3 minutes)) =>
      is_digit d1 && is_digit d2 && is_digit d3 && unsigned_decimal minutes
  | _ => false
  end.

(** The field [i] of a sentence, empty when there is none. *)
Definition field (i : nat) (sentence : string) : string :=
  nth i (PyStr.split PyStr.comma sentence) ""%string.


(** The same shape without the hemispheres: the prefix, at least nine
    fields, and numbers in the latitude, longitude and accuracy fields. *)
Definition numeric_fields (sentence : string) : bool :=
  PyStr.startswith sentence GPGGA
  && (9 <=? List.length (PyStr.split PyStr.comma sentence))%nat
  && is_ddmm (field 2 sentence)
  && is_dddmm (field 4 sentence)
  && unsigned_decimal (field 8 sentence).

(** The character [c] occurs in [s]. *)
Fixpoint has_char (c : ascii) (s : string) : bool :=
  match s with
  | EmptyString => false
  | String c' s' => Ascii.eqb c' c || has_char c s'
  end.

(** ** The retry of the reporter *)

(** A POST attempt that ends in a connection failure or a timeout. *)
Definition transport_failure (r : post_reply) : bool :=
  match r with
  | PostRaises (Requests e) => is_ConnectionError e || is_Timeout e
  | _ => false
  end.

(** A POST attempt that is answered with an HTTP error status, or that
    raises an exception of [requests] other than a connection failure or a
    timeout. *)
Definition terminal_error (r : post_reply) : bool :=
  match r with
  | Response status_code _ => (400 <=? status_code) && (status_code <? 600)
  | PostRaises (Requests e) => negb (is_ConnectionError e) && negb (is_Timeout e)
  | PostRaises _ => false
  end.

(** [n] POST requests with a sleep of two seconds between consecutive ones. *)
Fixpoint attempts_with_backoff (url : string) (p : payload) (timeout : Z)
    (n : nat) : list event :=
  match n with
  | O => []
  | S n' =>
      EvPost url p timeout ::
      match n' with
      | O => []
      | S _ => EvSleep 2 :: attempts_with_backoff url p timeout n'
      end
  end.

(** What a dispatch with a single attempt returns, by the reply to its POST
    request. *)
Definition single_attempt_result (r : post_reply) : outcome bool :=
  match r with
  | Response _ _ => Ret true
  | PostRaises (Requests e) =>
      if is_HTTPError e then Ret true
      else if is_ConnectionError e || is_Timeout e then Ret false
      else Ret true
  | PostRaises e => Raise e
  end.

(** ** The ways through one iteration

    [iteration E cfg st d w o w'] lists, branch by branch, how the loop body
    can go on the datagram [d] from the state [st] in the world [w]: with the
    outcome [o] (the next state, or the exception that ends the process) in
    the world [w'].  [loop_body_iteration] below proves that the loop body
    always takes one of these ways. *)

(** The value of [math.floor] where it is defined, 0 elsewhere. *)
Definition floor (v : PyFloat.float) : Z :=
  match v with
  | S754_finite s m e => floor_finite s m e
  | _ => 0
  end.

Definition report_payload (cfg : config) (easting northing : Z) : payload :=
  {| payload_x := easting; payload_y := northing;
     payload_radioId := radio_id cfg;
     payload_validFor := VALID_FOR_DURATION;
     payload_token := config_token cfg |}.

(** The state after a report of the fix [(latitude, longitude)] that was
    decided at the time [current_time]. *)
Definition reported (latitude longitude current_time : PyFloat.float) : state :=
  {| previous_position := (latitude, longitude);
     last_request_time := current_time |}.

(** The decision of the loop body, given whether the fix has moved and the
    time since the last report: the [if has_moved_flag: ... elif ...]. *)
Definition due (cfg : config) (has_moved_flag : bool)
    (time_since_last_request : PyFloat.float) : bool :=
  if has_moved_flag
  then ge_int time_since_last_request (moving_time_limit cfg)
  else ge_int time_since_last_request (stationary_time_limit cfg).

Definition making_request (has_moved_flag : bool) (p : payload) : message :=
  if has_moved_flag then MsgMakingRequest p else MsgMakingRequestStationary p.

(** The decision as the specification words it: a report is due when the
    fix has moved and the moving time limit has passed, or when it has not
    moved and the stationary time limit has passed. *)
Definition report_due (cfg : config) (distance elapsed : PyFloat.float) : bool :=
  (gt_int distance (distance_limit cfg)
   && ge_int elapsed (moving_time_limit cfg))
  || (negb (gt_int distance (distance_limit cfg))
      && ge_int elapsed (stationary_time_limit cfg)).

(** The distance between two positions, when [haversine_distance] gives
    one. *)
Definition distance_is {libm : Libm} (coord1 coord2 : PyFloat.float * PyFloat.float)
    (distance : PyFloat.float) : Prop :=
  forall w, haversine_distance coord1 coord2 w = (Ret (Some distance), w).

Section Iteration.
Context {libm : Libm}.
Variable E : env.
Variable cfg : config.
Variable st : state.

(** The fix of the datagram [data], when it has one. *)
Definition fix_of (data : string) (latitude longitude accuracy : PyFloat.float)
  : Prop :=
  data <> ""%string /\
  forall w, parse_nmea_sentence (filter_nmea_sentence data) w
            = (Ret (Some (latitude, longitude, accuracy)), w).

(** What the loop body has emitted when it reaches its decision. *)
Definition before_decision (latitude longitude current_time : PyFloat.float)
    (has_moved_flag : bool) : list event :=
  [EvTransform longitude latitude;
   EvTime current_time;
   EvLogInfo (MsgTimeSince (floor (sub current_time (last_request_time st))));
   EvLogInfo (MsgHasMoved has_moved_flag)].

Inductive iteration
  : datagram -> world -> outcome (control * state) -> world -> Prop :=
| it_undecodable w :
    iteration Undecodable w (Raise UnicodeDecodeError) w
| it_end_of_stream w :
    iteration (Text "") w (Ret (Break, st)) w
| it_no_fix data w evs :
    data <> ""%string ->
    (forall w0, parse_nmea_sentence (filter_nmea_sentence data) w0
                = (Ret None, advance w0 evs 0 0)) ->
    forallb is_parse_print evs = true ->
    iteration (Text data) w (Ret (Continue, st)) (advance w evs 0 0)
| it_inaccurate data w latitude longitude accuracy :
    fix_of data latitude longitude accuracy ->
    le_int accuracy 100 = false ->
    iteration (Text data) w (Ret (Continue, st)) w
| it_projection_fails data w latitude longitude accuracy e :
    fix_of data latitude longitude accuracy ->
    le_int accuracy 100 = true ->
    env_transform E longitude latitude = Raise e ->
    iteration (Text data) w (Raise TypeError)
      (advance w [EvTransform longitude latitude;
                  EvPrint (MsgErrorConverting e)] 0 0)
| it_projection_not_finite data w latitude longitude accuracy easting northing e :
    fix_of data latitude longitude accuracy ->
    le_int accuracy 100 = true ->
    env_transform E longitude latitude = Ret (easting, northing) ->
    is_finite easting && is_finite northing = false ->
    iteration (Text data) w (Raise e)
      (advance w [EvTransform longitude latitude] 0 0)
| it_no_distance data w latitude longitude accuracy easting northing evs :
    fix_of data latitude longitude accuracy ->
    le_int accuracy 100 = true ->
    env_transform E longitude latitude = Ret (easting, northing) ->
    is_finite easting && is_finite northing = true ->
    (forall w0, haversine_distance (previous_position st) (latitude, longitude) w0
                = (Ret None, advance w0 evs 0 0)) ->
    forallb is_print evs = true ->
    iteration (Text data) w (Raise TypeError)
      (advance w (EvTransform longitude latitude :: evs) 0 0)
| it_elapsed_not_finite data w latitude longitude accuracy easting northing
    distance e :
    fix_of data latitude longitude accuracy ->
    le_int accuracy 100 = true ->
    env_transform E longitude latitude = Ret (easting, northing) ->
    is_finite easting && is_finite northing = true ->
    (forall w0, haversine_distance (previous_position st) (latitude, longitude) w0
                = (Ret (Some distance), w0)) ->
    is_finite (sub (env_time E (n_time w)) (last_request_time st)) = false ->
    iteration (Text data) w (Raise e)
      (advance w [EvTransform longitude latitude;
                  EvTime (env_time E (n_time w))] 1 0)
| it_skip data w latitude longitude accuracy easting northing distance :
    fix_of data latitude longitude accuracy ->
    le_int accuracy 100 = true ->
    env_transform E longitude latitude = Ret (easting, northing) ->
    is_finite easting && is_finite northing = true ->
    (forall w0, haversine_distance (previous_position st) (latitude, longitude) w0
                = (Ret (Some distance), w0)) ->
    let current_time := env_time E (n_time w) in
    let time_since_last_request := sub current_time (last_request_time st) in
    let has_moved_flag := gt_int distance (distance_limit cfg) in
    is_finite time_since_last_request = true ->
    due cfg has_moved_flag time_since_last_request = false ->
    iteration (Text data) w (Ret (Continue, st))
      (advance w (before_decision latitude longitude current_time has_moved_flag)
               1 0)
| it_dispatch data w latitude longitude accuracy easting northing distance o w' :
    fix_of data latitude longitude accuracy ->
    le_int accuracy 100 = true ->
    env_transform E longitude latitude = Ret (easting, northing) ->
    is_finite easting && is_finite northing = true ->
    (forall w0, haversine_distance (previous_position st) (latitude, longitude) w0
                = (Ret (Some distance), w0)) ->
    let current_time := env_time E (n_time w) in
    let time_since_last_request := sub current_time (last_request_time st) in
    let has_moved_flag := gt_int distance (distance_limit cfg) in
    let p := report_payload cfg (floor easting) (floor northing) in
    is_finite time_since_last_request = true ->
    due cfg has_moved_flag time_since_last_request = true ->
    make_api_request_with_retry E (api_url cfg) p
        default_max_retries default_timeout_seconds
        (advance w (before_decision latitude longitude current_time has_moved_flag
                    ++ [EvLogInfo (making_request has_moved_flag p)]) 1 0)
    = (o, w') ->
    iteration (Text data) w
      match o with
      | Ret result =>
          Ret (Continue,
               if result then reported latitude longitude current_time else st)
      | Raise e => Raise e
      end
      w'.

End Iteration.

(** ** Sample inputs *)

(** A first-order C library: [sin v = v], [cos v = 1], [atan2 y x = y / x],
    [pow v w = v * v].  It is exact at the origin and lets the examples
    below run. *)
Definition small_angle : Libm :=
  {| c_sin := fun v => v;
     c_cos := fun _ => one;
     c_atan2 := fun y x => div y x;
     c_pow := fun v _ => mul v v |}.

Definition sample_payload : payload :=
  {| payload_x := 530000; payload_y := 180000; payload_radioId := "radio-1";
     payload_validFor := VALID_FOR_DURATION; payload_token := "secret" |}.

Definition sample_config : config :=
  {| radio_id := "radio-1"; config_token := "secret";
     host := "0.0.0.0"; port := 10110;
     api_url := "https://mrmap.example/api/position";
     moving_time_limit := 10; stationary_time_limit := 60;
     distance_limit := 50 |}.

(** The sentence and the datagram of the specification's end-to-end
    example. *)
Definition sample_sentence : string :=
  "$GPGGA,123519,4807.038,N,01131.000,E,1,08,0.9,545.4,M,46.9,M,,*47".

Definition sample_datagram : string :=
  String.append sample_sentence (String PyStr.newline "").

(** Its fix: latitude 48.1173, longitude 11.516666666666667, accuracy 0.9. *)
Definition sample_latitude : PyFloat.float :=
  S754_finite false 6771907948439824 (-47).
Definition sample_longitude : PyFloat.float :=
  S754_finite false 6483306963568777 (-49).
Definition sample_accuracy : PyFloat.float :=
  S754_finite false 8106479329266893 (-53).

(** The state at start-up when the clock read 900. *)
Definition sample_state : state :=
  {| previous_position := (zero, zero); last_request_time := of_int 900 |}.

(** The distance from the origin to the sample fix under [small_angle]. *)
Definition sample_distance : PyFloat.float :=
  Eval vm_compute in
    match fst (haversine_distance (libm := small_angle)
                 (zero, zero) (sample_latitude, sample_longitude) world0) with
    | Ret (Some d) => d
    | _ => nan
    end.

(** A world in which the endpoint accepts every report. *)
Definition env_accepting : env :=
  {| env_time := fun k => of_int (1000 + 100 * Z.of_nat k);
     env_post := fun _ => Response 200 "OK";
     env_transform := fun _ _ => Ret (of_int 530000, of_int 180000) |}.

(** An endpoint that answers HTTP 500 on every attempt. *)
Definition env_rejecting : env :=
  {| env_time := fun k => of_int (1000 + 100 * Z.of_nat k);
     env_post := fun _ => Response 500 "Internal Server Error";
     env_transform := fun _ _ => Ret (of_int 530000, of_int 180000) |}.

(** An endpoint that times out on every attempt. *)
Definition env_timing_out : env :=
  {| env_time := fun k => of_int (1000 + 100 * Z.of_nat k);
     env_post := fun _ => PostRaises (Requests ReadTimeout);
     env_transform := fun _ _ => Ret (of_int 530000, of_int 180000) |}.

(** A world in which the projection library fails. *)
Definition env_no_projection : env :=
  {| env_time := fun k => of_int (1000 + 100 * Z.of_nat k);
     env_post := fun _ => Response 200 "OK";
     env_transform := fun _ _ => Raise ProjError |}.

(** The payload of the report of the sample fix, and the world in which its
    dispatch begins when the iteration starts in [world0]. *)
Definition sample_report : payload := report_payload sample_config 530000 180000.

Definition sample_dispatch_world : world :=
  advance world0
    (before_decision sample_state sample_latitude sample_longitude (of_int 1000)
       (gt_int sample_distance (distance_limit sample_config))
     ++ [EvLogInfo (making_request
                      (gt_int sample_distance (distance_limit sample_config))
                      sample_report)]) 1 0.

(** A datagram with no [$GPGGA] line. *)
Definition unsupported_datagram : string :=
  String.append "$GPGLL,4916.45,N,12311.12,W,225444,A" (String PyStr.newline "").

(** The sample sentence with a longer sentence identifier. *)
Definition longer_identifier_sentence : string :=
  "$GPGGAX,123519,4807.038,N,01131.000,E,1,08,0.9,545.4,M,46.9,M,,*47".


(** Greenwich Observatory, in degrees. *)
Definition greenwich : PyFloat.float * PyFloat.float :=
  (of_decimal 514769 (-4), neg (of_decimal 5 (-4))).

(** An endpoint that cannot be reached twice and then accepts the report. *)
Definition env_flaky : env :=
  {| env_time := fun k => of_int (1000 + 100 * Z.of_nat k);
     env_post := fun k => match k with
                          | O | S O => PostRaises (Requests ConnectionError)
                          | _ => Response 200 "OK"
                          end;
     env_transform := fun _ _ => Ret (of_int 530000, of_int 180000) |}.

(** A world in which [requests.post] raises an exception that is not one
    of [requests]. *)
Definition env_broken : env :=
  {| env_time := fun k => of_int (1000 + 100 * Z.of_nat k);
     env_post := fun _ => PostRaises OtherError;
     env_transform := fun _ _ => Ret (of_int 530000, of_int 180000) |}.

(** The sample fix with no time, fix quality 0, no satellite count and
    nothing after the accuracy. *)
Definition bare_sentence : string :=
  "$GPGGA,,4807.038,N,01131.000,E,0,,0.9".

(** The sample sentence with its hemispheres in lower case. *)
Definition lowercase_hemispheres_sentence : string :=
  "$GPGGA,123519,4807.038,s,01131.000,w,1,08,0.9,545.4,M,46.9,M,,*47".

(** The state after a report of the sample fix when the clock read 900. *)
Definition sample_report_state : state :=
  reported sample_latitude sample_longitude (of_int 900).

(** A datagram whose latitude field reads 99 degrees: the parser does not
    check the range, so its fix (99.0, 11.516666666666667, 0.9) is
    accepted. *)
Definition out_of_range_datagram : string :=
  String.append
    "$GPGGA,123519,9900.000,N,01131.000,E,1,08,0.9,545.4,M,46.9,M,,*47"
    (String PyStr.newline "").

(** A world in which the projection returns infinite coordinates, as pyproj
    does for a point that it cannot project. *)
Definition env_out_of_range : env :=
  {| env_time := fun k => of_int (1000 + 100 * Z.of_nat k);
     env_post := fun _ => Response 200 "OK";
     env_transform := fun _ _ => Ret (infinity, infinity) |}.

(* ================================================================== *)
(** * Running the monad *)
(* ================================================================== *)

Lemma advance_nil (w : world) : advance w [] 0 0 = w.
Proof.
  destruct w as [tr nt np]; unfold advance; cbn.
  now rewrite app_nil_r, !Nat.add_0_r.
Qed.

Lemma advance_advance (w : world) evs1 t1 p1 evs2 t2 p2 :
  advance (advance w evs1 t1 p1) evs2 t2 p2
  = advance w (evs1 ++ evs2) (t1 + t2) (p1 + p2).
Proof.
  unfold advance; cbn. now rewrite <- app_assoc, !Nat.add_assoc.
Qed.

Lemma n_time_advance (w : world) evs times posts :
  n_time (advance w evs times posts) = (n_time w + times)%nat.
Proof. reflexivity. Qed.

Lemma n_post_advance (w : world) evs times posts :
  n_post (advance w evs times posts) = (n_post w + posts)%nat.
Proof. reflexivity. Qed.

Lemma trace_advance (w : world) evs times posts :
  trace (advance w evs times posts) = trace w ++ evs.
Proof. reflexivity. Qed.

Lemma emit_run (ev : event) (w : world) :
  emit ev w = (Ret tt, advance w [ev] 0 0).
Proof. unfold emit, advance. now rewrite !Nat.add_0_r. Qed.

(** Runs the monadic glue of a goal: binds, returns and emitted events. *)
Ltac py_run :=
  repeat (progress (unfold bind, ret, raise, print, logging_info, time_sleep, lift;
                    cbn beta iota delta [is_HTTPError is_ConnectionError is_Timeout];
                    rewrite ?emit_run, ?advance_advance, ?Nat.add_0_r)).

(* ================================================================== *)
(** * Binary64 arithmetic: signs *)
(* ================================================================== *)

Lemma shr_1_nonneg (mrs : shr_record) :
  0 <= shr_m mrs -> 0 <= shr_m (shr_1 mrs).
Proof.
  destruct mrs as [m r s]. cbn [shr_m].
  destruct m as [|[p|p|]|p]; cbn; lia.
Qed.

Lemma iter_pos_shr_1_nonneg (n : positive) :
  forall mrs, 0 <= shr_m mrs -> 0 <= shr_m (iter_pos shr_1 n mrs).
Proof.
  induction n as [n IH|n IH|]; intros mrs H; cbn [iter_pos].
  - apply IH, IH, shr_1_nonneg, H.
  - apply IH, IH, H.
  - apply shr_1_nonneg, H.
Qed.

Lemma shr_nonneg (mrs : shr_record) (e n : Z) :
  0 <= shr_m mrs -> 0 <= shr_m (fst (shr mrs e n)).
Proof.
  intros H. unfold shr. destruct n as [|p|p]; cbn [fst]; auto.
  now apply iter_pos_shr_1_nonneg.
Qed.

Lemma shr_m_record_of_loc (m : Z) (l : location) :
  shr_m (shr_record_of_loc m l) = m.
Proof. now destruct l as [|[ | | ]]. Qed.

Lemma shr_fexp_nonneg (m e : Z) (l : location) :
  0 <= m -> 0 <= shr_m (fst (shr_fexp prec emax m e l)).
Proof.
  intros H. unfold shr_fexp. apply shr_nonneg. now rewrite shr_m_record_of_loc.
Qed.

Lemma round_nearest_even_bounds (m : Z) (l : location) :
  m <= round_nearest_even m l <= m + 1.
Proof.
  unfold round_nearest_even.
  destruct l as [|[ | | ]]; try destruct (Z.even m); lia.
Qed.

(** Rounding a non-negative mantissa with the sign bit clear never gives a
    NaN or a negative float. *)
Lemma binary_round_aux_nonneg (m e : Z) (l : location) :
  0 <= m -> nonneg (binary_round_aux prec emax false m e l) = true.
Proof.
  intros Hm. unfold binary_round_aux.
  destruct (shr_fexp prec emax m e l) as [mrs' e'] eqn:H1.
  pose proof (shr_fexp_nonneg m e l Hm) as Hm'. rewrite H1 in Hm'. cbn [fst] in Hm'.
  pose proof (round_nearest_even_bounds (shr_m mrs') (loc_of_shr_record mrs')) as Hr.
  destruct (shr_fexp prec emax _ e' loc_Exact) as [mrs'' e''] eqn:H2.
  pose proof (shr_fexp_nonneg (round_nearest_even (shr_m mrs') (loc_of_shr_record mrs'))
                e' loc_Exact ltac:(lia)) as Hm''.
  rewrite H2 in Hm''. cbn [fst] in Hm''.
  destruct (shr_m mrs'') as [|p|p]; [reflexivity| |lia].
  now destruct (e'' <=? emax - prec).
Qed.

Lemma binary_round_nonneg (m : positive) (e : Z) :
  nonneg (binary_round prec emax false m e) = true.
Proof.
  unfold binary_round.
  destruct (shl_align m e _) as [mz ez].
  apply binary_round_aux_nonneg. lia.
Qed.

Lemma of_decimal_nonneg (d : N) (e10 : Z) : nonneg (of_decimal d e10) = true.
Proof.
  unfold of_decimal. destruct d as [|m]; [reflexivity|].
  destruct e10 as [|k|k]; try apply binary_round_nonneg.
  unfold SFdiv.
  destruct (SFdiv_core_binary prec emax (Z.pos m) 0 (Z.pos (10 ^ k)) 0)
    as [[mz ez] lz] eqn:Hcore.
  cbn [xorb]. apply binary_round_aux_nonneg.
  unfold SFdiv_core_binary in Hcore.
  match type of Hcore with
  | (let '(q, r) := Z.div_eucl ?a ?b in _) = _ =>
      pose proof (Z.div_eucl_eq a b ltac:(lia)) as Heq;
      pose proof (Z.mod_pos_bound a b ltac:(lia)) as Hmod;
      assert (Ha : 0 <= a);
      [|unfold Z.modulo in Hmod; destruct (Z.div_eucl a b) as [q r] eqn:Hqr]
  end.
  { destruct (_ - _ - _) as [|s|s]; try lia. apply Z.shiftl_nonneg. lia. }
  injection Hcore as <- _ _. nia.
Qed.

Lemma div_nonneg (v : PyFloat.float) (m : positive) (e : Z) :
  nonneg v = true -> nonneg (div v (S754_finite false m e)) = true.
Proof.
  destruct v as [[|]|[|]| |[|] mv ev]; try discriminate; intros _;
    try reflexivity.
  unfold div, SFdiv.
  destruct (SFdiv_core_binary prec emax (Z.pos mv) ev (Z.pos m) e)
    as [[mz ez] lz] eqn:Hcore.
  cbn [xorb]. apply binary_round_aux_nonneg.
  unfold SFdiv_core_binary in Hcore.
  match type of Hcore with
  | (let '(q, r) := Z.div_eucl ?a ?b in _) = _ =>
      pose proof (Z.div_eucl_eq a b ltac:(lia)) as Heq;
      pose proof (Z.mod_pos_bound a b ltac:(lia)) as Hmod;
      assert (Ha : 0 <= a);
      [|unfold Z.modulo in Hmod; destruct (Z.div_eucl a b) as [q r] eqn:Hqr]
  end.
  { destruct (_ - _ - _) as [|s|s]; try lia. apply Z.shiftl_nonneg. lia. }
  injection Hcore as <- _ _. nia.
Qed.

Lemma add_nonneg (u v : PyFloat.float) :
  nonneg u = true -> nonneg v = true -> nonneg (add u v) = true.
Proof.
  destruct u as [[|]|[|]| |[|] mu eu]; try discriminate;
    destruct v as [[|]|[|]| |[|] mv ev]; try discriminate; intros _ _;
    try reflexivity.
  unfold add, SFadd. cbn [cond_Zopp].
  match goal with
  | |- nonneg (binary_normalize _ _ (Z.pos ?a + Z.pos ?b) _ _) = true =>
      change (Z.pos a + Z.pos b) with (Z.pos (a + b))
  end.
  cbn [binary_normalize]. apply binary_round_nonneg.
Qed.




Lemma gt_int_not_le_int (v : PyFloat.float) (z : Z) :
  gt_int v z = true -> le_int v z = false.
Proof.
  unfold gt_int, le_int. now destruct (compare_int v z) as [[ | | ]|].
Qed.

(* ================================================================== *)
(** * Binary64 arithmetic: results that stay finite *)
(* ================================================================== *)

Lemma digits2_pos_size (p : positive) : digits2_pos p = Pos.size p.
Proof. induction p as [p IH|p IH|]; cbn; now rewrite ?IH. Qed.

Lemma Zdigits2_log2 (p : positive) : Zdigits2 (Z.pos p) = Z.log2 (Z.pos p) + 1.
Proof.
  cbn [Zdigits2]. rewrite digits2_pos_size.
  destruct p as [p|p|]; cbn [Z.log2 Pos.size]; lia.
Qed.

(** A positive integer below [2 ^ k] has at most [k] binary digits. *)
Lemma Zdigits2_le (z k : Z) : 0 <= k -> 0 <= z < 2 ^ k -> Zdigits2 z <= k.
Proof.
  intros Hk [Hz Hlt]. destruct z as [|p|p]; [cbn; lia| |lia].
  rewrite Zdigits2_log2.
  assert (Z.log2 (Z.pos p) < k) by (apply Z.log2_lt_pow2; lia).
  lia.
Qed.

Lemma Zdigits2_gt (p : positive) : Z.pos p < 2 ^ Zdigits2 (Z.pos p).
Proof.
  rewrite Zdigits2_log2.
  pose proof (Z.log2_spec (Z.pos p) ltac:(lia)) as [_ H].
  now rewrite <- Z.add_1_r in H.
Qed.

Lemma Zdigits2_pos (p : positive) : 0 < Zdigits2 (Z.pos p).
Proof. rewrite Zdigits2_log2. pose proof (Z.log2_nonneg (Z.pos p)). lia. Qed.

Lemma shr_1_half (mrs : shr_record) :
  0 <= shr_m mrs -> shr_m (shr_1 mrs) = shr_m mrs / 2.
Proof.
  destruct mrs as [m r s]. cbn [shr_m]. intros Hm.
  destruct m as [|[p|p|]|p]; try lia; cbn [shr_1 shr_m]; try reflexivity.
  - apply Z.div_unique with 1; lia.
  - apply Z.div_unique with 0; lia.
Qed.

Lemma iter_pos_shr_1_div (n : positive) :
  forall mrs, 0 <= shr_m mrs ->
              shr_m (iter_pos shr_1 n mrs) = shr_m mrs / 2 ^ Z.pos n.
Proof.
  induction n as [n IH|n IH|]; intros mrs H; cbn [iter_pos].
  - rewrite IH by (apply iter_pos_shr_1_nonneg, shr_1_nonneg, H).
    rewrite IH by (apply shr_1_nonneg, H).
    rewrite shr_1_half by exact H.
    rewrite !Z.div_div by (try apply Z.pow_pos_nonneg; lia).
    f_equal. rewrite Pos2Z.inj_xI.
    rewrite <- !Z.pow_add_r, <- (Z.pow_1_r 2) at 1 by lia.
    rewrite <- Z.pow_add_r by lia. f_equal. lia.
  - rewrite IH by (apply iter_pos_shr_1_nonneg, H).
    rewrite IH by exact H.
    rewrite !Z.div_div by (try apply Z.pow_pos_nonneg; lia).
    f_equal. rewrite Pos2Z.inj_xO, <- Z.pow_add_r by lia. f_equal. lia.
  - rewrite shr_1_half by exact H. reflexivity.
Qed.

Lemma fexp_value (x : Z) : fexp prec emax x = Z.max (x - 53) (-1074).
Proof. reflexivity. Qed.

(** Rounding [m * 2 ^ e] gives a finite float when the value is below
    [2 ^ 1023] and the exponent is not above the largest one. *)
Lemma binary_round_aux_finite (s : bool) (m : positive) (e : Z) :
  Zdigits2 (Z.pos m) + e <= 1023 -> e <= 971 ->
  is_finite (binary_round_aux prec emax s (Z.pos m) e loc_Exact) = true.
Proof.
  intros Hd He.
  pose proof (Zdigits2_gt m) as Hm. pose proof (Zdigits2_pos m) as Hdpos.
  set (d := Zdigits2 (Z.pos m)) in *.
  unfold binary_round_aux.
  destruct (shr_fexp prec emax (Z.pos m) e loc_Exact) as [mrs' e'] eqn:H1.
  assert (Hfirst :
            (shr_m mrs' = Z.pos m /\ loc_of_shr_record mrs' = loc_Exact /\ e' = e
             /\ fexp prec emax (d + e) <= e)
            \/ (exists n1, e' = e + Z.pos n1 /\ e' = fexp prec emax (d + e)
                           /\ shr_m mrs' = Z.pos m / 2 ^ Z.pos n1)).
  { unfold shr_fexp, shr in H1. fold d in H1. cbn [shr_record_of_loc] in H1.
    destruct (fexp prec emax (d + e) - e) as [|n1|n1] eqn:Hn1.
    - injection H1 as <- <-. left. repeat split. lia.
    - injection H1 as <- <-. right. exists n1.
      split; [reflexivity|]. split; [lia|].
      now rewrite iter_pos_shr_1_div by (cbn; lia).
    - injection H1 as <- <-. left. repeat split. lia. }
  pose proof (round_nearest_even_bounds (shr_m mrs') (loc_of_shr_record mrs')) as Hr.
  set (m1 := round_nearest_even (shr_m mrs') (loc_of_shr_record mrs')) in *.
  assert (Hm1 : 0 <= m1 /\ Zdigits2 m1 + e' <= 1024 /\ e' <= 971).
  { rewrite fexp_value in Hfirst.
    destruct Hfirst as [[Hm' [Hloc [-> Hfexp]]] | [n1 [He' [He'' Hm']]]].
    - subst m1. rewrite Hm', Hloc. cbn [round_nearest_even]. fold d. lia.
    - assert (Hdiv : 0 <= Z.pos m / 2 ^ Z.pos n1)
        by (apply Z.div_pos; [lia|apply Z.pow_pos_nonneg; lia]).
      rewrite Hm' in Hr. split; [lia|]. split; [|lia].
      destruct (Z_le_gt_dec (Z.pos n1) d) as [Hle|Hgt].
      + assert (Z.pos m / 2 ^ Z.pos n1 < 2 ^ (d - Z.pos n1)).
        { apply Z.div_lt_upper_bound; [apply Z.pow_pos_nonneg; lia|].
          rewrite <- Z.pow_add_r by lia.
          now replace (Z.pos n1 + (d - Z.pos n1)) with d by lia. }
        assert (Zdigits2 m1 <= d - Z.pos n1 + 1).
        { apply Zdigits2_le; [lia|]. split; [lia|].
          rewrite Z.pow_add_r, Z.pow_1_r by lia. lia. }
        lia.
      + assert (Z.pos m / 2 ^ Z.pos n1 = 0).
        { apply Z.div_small. split; [lia|].
          apply Z.lt_le_trans with (2 ^ d); [exact Hm|].
          apply Z.pow_le_mono_r; lia. }
        assert (Zdigits2 m1 <= 1) by (apply Zdigits2_le; [lia|]; cbn; lia).
        lia. }
  destruct Hm1 as [Hm1 [Hd1 He']].
  destruct (shr_fexp prec emax m1 e' loc_Exact) as [mrs'' e''] eqn:H2.
  pose proof (shr_fexp_nonneg m1 e' loc_Exact Hm1) as Hm''.
  rewrite H2 in Hm''. cbn [fst] in Hm''.
  assert (He'' : shr_m mrs'' = 0 \/ e'' <= 971).
  { unfold shr_fexp, shr in H2. rewrite fexp_value in H2.
    destruct (Z.max (Zdigits2 m1 + e' - 53) (-1074) - e') as [|n2|n2] eqn:Hn2;
      injection H2 as <- <-; right; lia. }
  destruct (shr_m mrs'') as [|p|p]; [reflexivity| |lia].
  destruct He'' as [He''|He'']; [discriminate|].
  replace (e'' <=? emax - prec) with true; [reflexivity|].
  symmetry. apply Z.leb_le. unfold emax, prec. lia.
Qed.

Lemma mul_finite (sx : bool) (mx : positive) (ex : Z)
    (sy : bool) (my : positive) (ey : Z) :
  Zdigits2 (Z.pos mx) + ex + (Zdigits2 (Z.pos my) + ey) <= 1023 ->
  ex + ey <= 971 ->
  is_finite (mul (S754_finite sx mx ex) (S754_finite sy my ey)) = true.
Proof.
  intros Hd He. unfold mul, SFmul.
  apply binary_round_aux_finite; [|exact He].
  assert (Zdigits2 (Z.pos (mx * my)) <= Zdigits2 (Z.pos mx) + Zdigits2 (Z.pos my)).
  { pose proof (Zdigits2_gt mx). pose proof (Zdigits2_gt my).
    pose proof (Zdigits2_pos mx). pose proof (Zdigits2_pos my).
    apply Zdigits2_le; [lia|]. split; [lia|].
    rewrite Z.pow_add_r, Pos2Z.inj_mul by lia.
    apply Z.mul_lt_mono_nonneg; lia. }
  lia.
Qed.

(** A representable finite float has at most 53 digits and an exponent of
    at most 971. *)
Lemma valid_finite_bounds (s : bool) (m : positive) (e : Z) :
  valid (S754_finite s m e) = true ->
  Zdigits2 (Z.pos m) <= 53 /\ e <= 971.
Proof.
  unfold valid, valid_binary, bounded, canonical_mantissa.
  intros H. apply andb_true_iff in H as [Hc He].
  apply Z.eqb_eq in Hc. apply Z.leb_le in He.
  rewrite fexp_value in Hc. cbn [Zdigits2]. unfold emax, prec in He. lia.
Qed.

Lemma radians_finite (v : PyFloat.float) :
  valid v = true -> is_finite v = true -> is_finite (radians v) = true.
Proof.
  intros Hv Hf. unfold radians, degToRad.
  destruct v as [s|s| |s m e]; try discriminate; [reflexivity|].
  destruct (valid_finite_bounds s m e Hv) as [Hd He].
  apply mul_finite; [|lia].
  change (Zdigits2 5030569068109113) with 53. lia.
Qed.

Lemma sub_diag (v : PyFloat.float) : is_finite v = true -> sub v v = zero.
Proof.
  destruct v as [[|]|s| |s m e]; try discriminate; intros _; try reflexivity.
  unfold sub, SFsub. rewrite Z.min_id.
  unfold shl_align. rewrite !Z.sub_diag. reflexivity.
Qed.

(** A binary64 value of absolute value at most 1 is a zero, or has an
    exponent of at most -52 and a magnitude below 2. *)
Lemma unit_range_bounds (c : PyFloat.float) :
  valid c = true -> leb (fabs c) one = true ->
  is_zero c = true
  \/ exists s m e, c = S754_finite s m e /\ Zdigits2 (Z.pos m) + e <= 1 /\ e <= -52.
Proof.
  intros Hv Hle. destruct c as [s|s| |s m e]; try discriminate.
  - now left.
  - right. exists s, m, e. split; [reflexivity|].
    destruct (valid_finite_bounds s m e Hv) as [Hd _].
    assert (He : e <= -52).
    { unfold leb, SFleb, fabs, SFabs in Hle.
      change one with (S754_finite false 4503599627370496 (-52)) in Hle.
      cbn [SFcompare] in Hle.
      destruct (Z.compare_spec e (-52)); try lia; discriminate. }
    lia.
Qed.

Lemma mul_unit_range (c1 c2 : PyFloat.float) :
  valid c1 = true -> leb (fabs c1) one = true ->
  valid c2 = true -> leb (fabs c2) one = true ->
  is_finite (mul c1 c2) = true.
Proof.
  intros Hv1 Hl1 Hv2 Hl2.
  destruct (unit_range_bounds c1 Hv1 Hl1) as [Hz1 | [s1 [m1 [e1 [-> [Hd1 He1]]]]]];
    destruct (unit_range_bounds c2 Hv2 Hl2) as [Hz2 | [s2 [m2 [e2 [-> [Hd2 He2]]]]]].
  - destruct c1, c2; try discriminate; reflexivity.
  - destruct c1; try discriminate; reflexivity.
  - destruct c2; try discriminate; reflexivity.
  - apply mul_finite; lia.
Qed.

Lemma mul_finite_zero (u : PyFloat.float) :
  is_finite u = true -> is_zero (mul u zero) = true.
Proof. destruct u; try discriminate; reflexivity. Qed.

Lemma add_zero_zero (z : PyFloat.float) : is_zero z = true -> add zero z = zero.
Proof. destruct z as [[|]| | |]; try discriminate; reflexivity. Qed.

(* ================================================================== *)
(** * [float(s)] on unsigned decimals *)
(* ================================================================== *)

Lemma is_digit_plain (c : ascii) :
  is_digit c = true ->
  to_ascii c = c /\ is_underscore c = false /\ is_c_space c = false
  /\ Ascii.eqb c "-" = false /\ Ascii.eqb c "+" = false
  /\ Ascii.eqb c "." = false /\ to_lower c = c.
Proof.
  destruct c as [[|] [|] [|] [|] [|] [|] [|] [|]]; cbn; intros H;
    try discriminate; repeat split.
Qed.

Lemma plain_char (c : ascii) :
  is_digit c || Ascii.eqb c "." = true ->
  to_ascii c = c /\ is_underscore c = false /\ is_c_space c = false.
Proof.
  intros H. apply orb_true_iff in H as [H|H].
  - destruct (is_digit_plain c H) as [? [? [? _]]]. auto.
  - apply Ascii.eqb_eq in H. subst c. repeat split.
Qed.

Lemma all_digits_plain (s : string) : all_digits s = true -> plain s = true.
Proof.
  induction s as [|c s IH]; [reflexivity|]. cbn.
  intros H. apply andb_true_iff in H as [Hc Hs]. now rewrite Hc, IH.
Qed.

Lemma digits_then_fraction_plain (s : string) :
  digits_then_fraction s = true -> plain s = true.
Proof.
  induction s as [|c s IH]; [reflexivity|]. cbn.
  destruct (Ascii.eqb c ".") eqn:Hpoint.
  - intros H. rewrite all_digits_plain by exact H. now rewrite orb_true_r.
  - intros H. apply andb_true_iff in H as [Hc Hs]. now rewrite Hc, IH.
Qed.

Lemma map_to_ascii_plain (s : string) :
  plain s = true -> PyStr.map to_ascii s = s.
Proof.
  induction s as [|c s IH]; [reflexivity|]. cbn.
  intros H. apply andb_true_iff in H as [Hc Hs].
  destruct (plain_char c Hc) as [-> _]. now rewrite IH.
Qed.

Lemma strip_underscores_plain (s : string) :
  forall prev, plain s = true -> is_underscore prev = false ->
               strip_underscores prev s = Some s.
Proof.
  induction s as [|c s IH]; intros prev Hs Hprev; cbn.
  - now rewrite Hprev.
  - cbn in Hs. apply andb_true_iff in Hs as [Hc Hs].
    destruct (plain_char c Hc) as [_ [Hu _]].
    rewrite Hu, Hprev. cbn. now rewrite IH.
Qed.

Lemma drop_while_end_plain (s : string) :
  plain s = true -> PyStr.drop_while_end is_c_space s = s.
Proof.
  induction s as [|c s IH]; [reflexivity|]. cbn.
  intros H. apply andb_true_iff in H as [Hc Hs].
  destruct (plain_char c Hc) as [_ [_ Hsp]].
  rewrite IH by exact Hs. rewrite Hsp. now destruct s.
Qed.

(** A run of digits is read to its end. *)
Lemma read_digits_all (s : string) :
  all_digits s = true ->
  forall acc n, exists acc' n',
    read_digits s acc n = (acc', n', EmptyString) /\ (n <= n')%nat.
Proof.
  induction s as [|c s IH]; intros Hs acc n; cbn.
  - exists acc, n. split; [reflexivity|lia].
  - cbn in Hs. apply andb_true_iff in Hs as [Hc Hs]. rewrite Hc.
    destruct (IH Hs (10 * acc + digit_val c)%N (S n)) as [acc' [n' [Hrun Hle]]].
    exists acc', n'. split; [exact Hrun|lia].
Qed.

(** Digits are read up to the end or up to the point. *)
Lemma read_digits_then_fraction (s : string) :
  digits_then_fraction s = true ->
  forall acc n, exists acc' n' rest,
    read_digits s acc n = (acc', n', rest) /\ (n <= n')%nat
    /\ (rest = EmptyString
        \/ exists fraction,
             rest = String "." fraction /\ all_digits fraction = true).
Proof.
  induction s as [|c s IH]; intros Hs acc n; cbn.
  - exists acc, n, EmptyString. split; [reflexivity|]. split; [lia|now left].
  - cbn in Hs. destruct (Ascii.eqb c ".") eqn:Hpoint.
    + apply Ascii.eqb_eq in Hpoint. subst c. cbn.
      exists acc, n, (String "." s). split; [reflexivity|]. split; [lia|].
      right. now exists s.
    + apply andb_true_iff in Hs as [Hc Hs]. rewrite Hc.
      destruct (IH Hs (10 * acc + digit_val c)%N (S n))
        as [acc' [n' [rest [Hrun [Hle Hrest]]]]].
      exists acc', n', rest. split; [exact Hrun|]. split; [lia|exact Hrest].
Qed.

Lemma parse_decimal_unsigned (s : string) :
  unsigned_decimal s = true -> exists d e, parse_decimal s = Some (d, e).
Proof.
  destruct s as [|c s]; [discriminate|]. cbn [unsigned_decimal].
  intros H. apply andb_true_iff in H as [Hc Hs].
  unfold parse_decimal. cbn [read_digits]. rewrite Hc.
  destruct (read_digits_then_fraction s Hs (10 * 0 + digit_val c)%N 1)
    as [ip [n1 [rest [Hrun [Hle Hrest]]]]].
  rewrite Hrun.
  destruct Hrest as [-> | [fraction [-> Hfraction]]].
  - destruct n1 as [|n1]; [lia|]. cbn. eexists _, _. reflexivity.
  - cbn [Ascii.eqb Bool.eqb].
    destruct (read_digits_all fraction Hfraction ip 0) as [m [n2 [Hrun2 _]]].
    rewrite Hrun2. destruct n1 as [|n1]; [lia|]. cbn. eexists _, _. reflexivity.
Qed.

(** [float] of an unsigned decimal succeeds, with a float that is not
    negative. *)
Lemma float_of_str_unsigned (s : string) :
  unsigned_decimal s = true ->
  exists v, float_of_str s = Some v /\ nonneg v = true.
Proof.
  intros Hs.
  destruct (parse_decimal_unsigned s Hs) as [d [e Hparse]].
  destruct s as [|c s]; [discriminate|].
  cbn [unsigned_decimal] in Hs. apply andb_true_iff in Hs as [Hc Hs'].
  assert (Hplain : plain (String c s) = true).
  { cbn. now rewrite Hc, (digits_then_fraction_plain s Hs'). }
  destruct (is_digit_plain c Hc) as [_ [_ [Hsp [Hminus [Hplus [_ Hlow]]]]]].
  unfold float_of_str.
  rewrite (map_to_ascii_plain _ Hplain).
  rewrite (strip_underscores_plain _ Ascii.zero Hplain eq_refl).
  cbn [PyStr.drop_while]. rewrite Hsp.
  rewrite (drop_while_end_plain _ Hplain).
  cbn [read_sign]. rewrite Hminus, Hplus.
  assert (Hname : parse_inf_or_nan (String c s) = None).
  { unfold parse_inf_or_nan. cbn [PyStr.map]. rewrite Hlow.
    clear - Hc.
    destruct c as [[|] [|] [|] [|] [|] [|] [|] [|]]; try discriminate; reflexivity. }
  rewrite Hname, Hparse.
  exists (of_decimal d e). split; [reflexivity|apply of_decimal_nonneg].
Qed.

(* ================================================================== *)
(** * Computations that leave the world alone *)
(* ================================================================== *)

Lemma pure_as_ret {A} (a : A) : pure_as (ret a) (Ret a).
Proof. intros w; reflexivity. Qed.

Lemma pure_as_raise {A} (e : exn) : pure_as (@raise A e) (Raise e).
Proof. intros w; reflexivity. Qed.

Lemma confined_ret {A} allowed (a : A) : confined allowed (ret a).
Proof. exists (Ret a). split; [apply pure_as_ret | exact I]. Qed.

Lemma confined_raise {A} (allowed : exn -> bool) (e : exn) :
  allowed e = true -> confined allowed (@raise A e).
Proof. intros H. exists (Raise e). split; [apply pure_as_raise | exact H]. Qed.

Lemma confined_bind {A B} allowed (m : Py A) (k : A -> Py B) :
  confined allowed m -> (forall a, confined allowed (k a)) ->
  confined allowed (bind m k).
Proof.
  intros [[a|e] [Hm He]] Hk.
  - destruct (Hk a) as [o [Hka Ho]]. exists o. split; [|exact Ho].
    intros w. unfold bind. now rewrite Hm, Hka.
  - exists (Raise e). split; [|exact He].
    intros w. unfold bind. now rewrite Hm.
Qed.

Lemma confined_index {A} allowed (l : list A) (i : nat) :
  allowed IndexError = true -> confined allowed (index l i).
Proof.
  intros H. unfold index. destruct (nth_error l i);
    [apply confined_ret | now apply confined_raise].
Qed.

Lemma confined_float allowed (s : string) :
  allowed ValueError = true -> confined allowed (float s).
Proof.
  intros H. unfold float. destruct (float_of_str s);
    [apply confined_ret | now apply confined_raise].
Qed.

Lemma confined_math_1 func can_overflow v : confined any_exn (math_1 func can_overflow v).
Proof.
  unfold math_1.
  destruct (is_nan (func v) && negb (is_nan v)); [now apply confined_raise|].
  destruct (is_inf (func v) && is_finite v); [now apply confined_raise|].
  apply confined_ret.
Qed.

Lemma confined_float_pow_2 {libm : Libm} v : confined any_exn (float_pow_2 v).
Proof.
  unfold float_pow_2.
  repeat match goal with
         | |- confined _ (if ?c then _ else _) => destruct c
         | |- confined _ (ret _) => apply confined_ret
         | |- confined _ (raise _) => now apply confined_raise
         end.
Qed.

Lemma math_floor_finite (v : PyFloat.float) :
  is_finite v = true -> math_floor v = ret (floor v).
Proof. destruct v; try discriminate; reflexivity. Qed.

Lemma math_floor_not_finite (v : PyFloat.float) :
  is_finite v = false -> exists e, math_floor v = raise e.
Proof. destruct v; try discriminate; eexists; reflexivity. Qed.

(* ================================================================== *)
(** * SentenceExtractor and FixParser *)
(* ================================================================== *)

(** [parse_nmea_sentence] never raises; it either returns a fix and prints
    nothing, or returns [None] after at most one diagnostic. *)
Lemma parse_nmea_sentence_run (sentence : string) :
  exists r evs,
    (forall w, parse_nmea_sentence sentence w = (Ret r, advance w evs 0 0))
    /\ (r <> None -> evs = [])
    /\ forallb is_parse_print evs = true.
Proof.
  unfold parse_nmea_sentence.
  destruct (String.eqb sentence "") eqn:Hempty.
  { exists None, []. split; [|split; [congruence|reflexivity]].
    intros w. unfold try_except, ret. now rewrite advance_nil. }
  destruct (PyStr.startswith sentence GPGGA) eqn:Hprefix.
  2:{ exists None, [EvPrint (MsgUnsupported sentence)].
      split; [|split; [congruence|reflexivity]].
      intros w. unfold try_except. py_run. reflexivity. }
  match goal with
  | |- context [try_except ?body _] =>
      assert (Hbody : confined parse_error body)
  end.
  { repeat (apply confined_bind; [|intros ?]);
      first [ now apply confined_index | now apply confined_float | apply confined_ret ]. }
  destruct Hbody as [[r|e] [Hrun He]].
  - exists r, []. split; [|split; reflexivity].
    intros w. unfold try_except. now rewrite Hrun, advance_nil.
  - exists None, [EvPrint (MsgErrorParsing e)].
    split; [|split; [congruence|reflexivity]].
    intros w. unfold try_except. rewrite Hrun.
    destruct e; try discriminate; py_run; reflexivity.
Qed.

(** A fix is returned without a word. *)
Lemma parse_nmea_sentence_fix (sentence : string) w o w' fx :
  parse_nmea_sentence sentence w = (o, w') -> o = Ret (Some fx) ->
  w' = w /\ forall w0, parse_nmea_sentence sentence w0 = (Ret (Some fx), w0).
Proof.
  destruct (parse_nmea_sentence_run sentence) as [r [evs [Hrun [Hquiet _]]]].
  intros H ->. rewrite Hrun in H. injection H as Hr Hw. subst r w'.
  rewrite Hquiet in * by congruence. split; [apply advance_nil|].
  intros w0. now rewrite Hrun, advance_nil.
Qed.

Lemma startswith_first_six (line : string) :
  PyStr.take 6 line = GPGGA -> PyStr.startswith line GPGGA = true.
Proof.
  destruct line as [|c1 [|c2 [|c3 [|c4 [|c5 [|c6 rest]]]]]]; try discriminate.
  cbn [PyStr.take]. intros [= -> -> -> -> -> ->].
  unfold PyStr.startswith, GPGGA. cbn. now destruct rest.
Qed.

Lemma find_first {A} (f : A -> bool) (before after : list A) (a : A) :
  forallb (fun b => negb (f b)) before = true -> f a = true ->
  List.find f (before ++ a :: after) = Some a.
Proof.
  induction before as [|b before IH]; cbn; intros Hbefore Ha.
  - now rewrite Ha.
  - apply andb_true_iff in Hbefore as [Hb Hbefore].
    apply negb_true_iff in Hb. rewrite Hb. now apply IH.
Qed.

Example filter_sample_datagram :
  filter_nmea_sentence sample_datagram = sample_sentence.
Proof. reflexivity. Qed.

Example filter_unsupported_datagram :
  filter_nmea_sentence unsupported_datagram = ""%string.
Proof. reflexivity. Qed.

Example parse_sample_sentence :
  parse_nmea_sentence sample_sentence world0
  = (Ret (Some (sample_latitude, sample_longitude, sample_accuracy)), world0).
Proof. vm_compute. reflexivity. Qed.

Example parse_truncated_sentence :
  parse_nmea_sentence "$GPGGA,123519,4807.038,N" world0
  = (Ret None, advance world0 [EvPrint (MsgErrorParsing IndexError)] 0 0).
Proof. vm_compute. reflexivity. Qed.

(** A sentence with the prefix is decoded field by field: it gives a fix, or
    the diagnostic of a field that is missing or not a number, never the
    diagnostic of an unsupported sentence. *)
Lemma parse_nmea_sentence_supported (sentence : string) :
  PyStr.startswith sentence GPGGA = true ->
  exists r evs,
    (forall w, parse_nmea_sentence sentence w = (Ret r, advance w evs 0 0))
    /\ ((exists fx, r = Some fx /\ evs = [])
        \/ (exists e, parse_error e = true /\ r = None
                      /\ evs = [EvPrint (MsgErrorParsing e)])).
Proof.
  intros Hprefix. unfold parse_nmea_sentence.
  assert (Hne : String.eqb sentence "" = false).
  { destruct sentence; [discriminate Hprefix|reflexivity]. }
  rewrite Hne, Hprefix.
  match goal with
  | |- context [try_except ?body _] =>
      assert (Hbody : confined parse_error body)
  end.
  { repeat (apply confined_bind; [|intros ?]);
      first [ now apply confined_index | now apply confined_float | apply confined_ret ]. }
  match goal with
  | |- context [try_except ?body _] =>
      assert (Hsome : forall w r w', body w = (Ret r, w') -> r <> None)
  end.
  { intros w r w'. unfold bind, index, float, ret, raise.
    repeat match goal with
           | |- context [match ?x with _ => _ end] => destruct x
           end; intros [= <- _]; discriminate. }
  destruct Hbody as [[r|e] [Hrun He]].
  - exists r, []. split.
    + intros w. unfold try_except. now rewrite Hrun, advance_nil.
    + left. specialize (Hsome world0 r world0 (Hrun world0)).
      destruct r as [fx|]; [|contradiction]. now exists fx.
  - exists None, [EvPrint (MsgErrorParsing e)]. split.
    + intros w. unfold try_except. rewrite Hrun.
      destruct e; try discriminate; py_run; reflexivity.
    + right. now exists e.
Qed.

(** C9. A line whose first six characters are [$GPGGA] is accepted whatever
    follows them: [filter_nmea_sentence] returns it when no earlier line of
    the datagram has the prefix, and [parse_nmea_sentence] decodes its
    fields as those of a supported sentence. *)
Theorem C9_prefix_acceptance (line : string) :
  PyStr.take 6 line = GPGGA ->
  (forall data before after,
      PyStr.split PyStr.newline (PyStr.strip data) = before ++ line :: after ->
      forallb (fun l => negb (PyStr.startswith l GPGGA)) before = true ->
      filter_nmea_sentence data = line)
  /\ exists r evs,
       (forall w, parse_nmea_sentence line w = (Ret r, advance w evs 0 0))
       /\ ((exists fx, r = Some fx /\ evs = [])
           \/ (exists e, parse_error e = true /\ r = None
                         /\ evs = [EvPrint (MsgErrorParsing e)])).
Proof.
  intros Hsix. pose proof (startswith_first_six line Hsix) as Hprefix.
  split.
  - intros data before after Hlines Hbefore.
    unfold filter_nmea_sentence. rewrite Hlines.
    now rewrite (find_first _ before after line Hbefore Hprefix).
  - now apply parse_nmea_sentence_supported.
Qed.

Lemma C9_prefix_acceptance_witness :
  PyStr.take 6 longer_identifier_sentence = GPGGA
  /\ filter_nmea_sentence
       (String.append unsupported_datagram longer_identifier_sentence)
     = longer_identifier_sentence
  /\ parse_nmea_sentence longer_identifier_sentence world0
     = (Ret (Some (sample_latitude, sample_longitude, sample_accuracy)), world0).
Proof.
  split; [reflexivity|].
  destruct (C9_prefix_acceptance longer_identifier_sentence eq_refl)
    as [Hfilter _].
  split; [|reflexivity].
  apply (Hfilter (String.append unsupported_datagram longer_identifier_sentence)
           ["$GPGLL,4916.45,N,12311.12,W,225444,A"%string] []);
    reflexivity.
Defined.

(** ** Hemispheres *)

Lemma nth_error_field (i : nat) (sentence : string) :
  (i < List.length (PyStr.split PyStr.comma sentence))%nat ->
  nth_error (PyStr.split PyStr.comma sentence) i = Some (field i sentence).
Proof. intros H. now apply nth_error_nth'. Qed.

(** The float of the degrees and of the minutes of a latitude field. *)
Lemma float_of_ddmm (s : string) :
  is_ddmm s = true ->
  exists deg min,
    float_of_str (PyStr.take 2 s) = Some deg /\ nonneg deg = true
    /\ float_of_str (PyStr.drop 2 s) = Some min /\ nonneg min = true.
Proof.
  destruct s as [|d1 [|d2 minutes]]; try discriminate. cbn [is_ddmm].
  intros H. apply andb_true_iff in H as [H Hmin]. apply andb_true_iff in H as [H1 H2].
  destruct (float_of_str_unsigned (String d1 (String d2 ""))) as [deg [Hdeg Hdeg']].
  { cbn. rewrite H1, H2.
    destruct (is_digit_plain d2 H2) as [_ [_ [_ [_ [_ [-> _]]]]]]. reflexivity. }
  destruct (float_of_str_unsigned minutes Hmin) as [min [Hm Hm']].
  exists deg, min. cbn [PyStr.take PyStr.drop]. auto.
Qed.

Lemma float_of_dddmm (s : string) :
  is_dddmm s = true ->
  exists deg min,
    float_of_str (PyStr.take 3 s) = Some deg /\ nonneg deg = true
    /\ float_of_str (PyStr.drop 3 s) = Some min /\ nonneg min = true.
Proof.
  destruct s as [|d1 [|d2 [|d3 minutes]]]; try discriminate. cbn [is_dddmm].
  intros H. apply andb_true_iff in H as [H Hmin]. apply andb_true_iff in H as [H H3].
  apply andb_true_iff in H as [H1 H2].
  destruct (float_of_str_unsigned (String d1 (String d2 (String d3 ""))))
    as [deg [Hdeg Hdeg']].
  { cbn. rewrite H1, H2, H3.
    destruct (is_digit_plain d2 H2) as [_ [_ [_ [_ [_ [-> _]]]]]].
    destruct (is_digit_plain d3 H3) as [_ [_ [_ [_ [_ [-> _]]]]]]. reflexivity. }
  destruct (float_of_str_unsigned minutes Hmin) as [min [Hm Hm']].
  exists deg, min. cbn [PyStr.take PyStr.drop]. auto.
Qed.

Lemma degrees_nonneg (deg min : PyFloat.float) :
  nonneg deg = true -> nonneg min = true ->
  nonneg (add deg (div min (of_int 60))) = true.
Proof.
  intros Hdeg Hmin. apply add_nonneg; [exact Hdeg|].
  change (of_int 60) with (S754_finite false 8444249301319680 (-47)).
  now apply div_nonneg.
Qed.




(* ================================================================== *)
(** * DistanceEvaluator *)
(* ================================================================== *)

Section Distance.
Context {libm : Libm}.

(** [haversine_distance] never raises; it returns a distance and prints
    nothing, or returns [None] after one diagnostic. *)
Lemma haversine_distance_run (coord1 coord2 : PyFloat.float * PyFloat.float) :
  exists r evs,
    (forall w, haversine_distance coord1 coord2 w = (Ret r, advance w evs 0 0))
    /\ (r <> None -> evs = [])
    /\ forallb is_print evs = true.
Proof.
  unfold haversine_distance.
  match goal with
  | |- context [try_except ?body _] => assert (Hbody : confined any_exn body)
  end.
  { cbv zeta. cbn [fst snd].
    repeat (apply confined_bind; [|intros ?]);
      first [ apply confined_math_1 | apply confined_float_pow_2 | apply confined_ret ]. }
  destruct Hbody as [[r|e] [Hrun _]].
  - exists r, []. split; [|split; reflexivity].
    intros w. unfold try_except. now rewrite Hrun, advance_nil.
  - exists None, [EvPrint (MsgErrorHaversine e)].
    split; [|split; [congruence|reflexivity]].
    intros w. unfold try_except. rewrite Hrun.
    unfold except_Exception. py_run. reflexivity.
Qed.

(** [has_moved] compares the distance with the threshold, and raises
    [TypeError] when there is no distance to compare. *)
Lemma has_moved_run (prev cur : PyFloat.float * PyFloat.float) (threshold : Z) :
  (exists d,
      (forall w, haversine_distance prev cur w = (Ret (Some d), w))
      /\ forall w, has_moved prev cur threshold w = (Ret (gt_int d threshold), w))
  \/ (exists evs,
        (forall w, haversine_distance prev cur w = (Ret None, advance w evs 0 0))
        /\ (forall w, has_moved prev cur threshold w
                      = (Raise TypeError, advance w evs 0 0))
        /\ forallb is_print evs = true).
Proof.
  destruct (haversine_distance_run prev cur) as [[d|] [evs [Hrun [Hquiet Hprints]]]].
  - left. exists d. rewrite Hquiet in Hrun by congruence.
    assert (Hrun' : forall w, haversine_distance prev cur w = (Ret (Some d), w))
      by (intros w; now rewrite Hrun, advance_nil).
    split; [exact Hrun'|].
    intros w. unfold has_moved, bind. now rewrite Hrun'.
  - right. exists evs. split; [exact Hrun|]. split; [|exact Hprints].
    intros w. unfold has_moved, bind. now rewrite Hrun.
Qed.

Lemma distance_is_intro coord1 coord2 w w' distance :
  haversine_distance coord1 coord2 w = (Ret (Some distance), w') ->
  distance_is coord1 coord2 distance.
Proof.
  destruct (haversine_distance_run coord1 coord2) as [r [evs [Hrun [Hquiet _]]]].
  intros H. rewrite Hrun in H. injection H as Hr _. subst r.
  rewrite Hquiet in Hrun by congruence.
  intros w0. now rewrite Hrun, advance_nil.
Qed.

End Distance.

(** ** The distance from a position to itself *)

Section Identity.
Context {libm : Libm}.
Hypothesis libm_C99 : C99 libm.

Lemma math_sin_zero (w : world) : math_sin zero w = (Ret zero, w).
Proof. unfold math_sin, math_1. now rewrite (sin_zero libm libm_C99). Qed.

Lemma math_cos_finite (v : PyFloat.float) (w : world) :
  is_finite v = true -> math_cos v w = (Ret (c_cos v), w).
Proof.
  intros Hv. destruct (cos_range libm libm_C99 v Hv) as [_ Hle].
  unfold math_cos, math_1.
  destruct (c_cos v) as [s|s| |s m e]; try discriminate; reflexivity.
Qed.

(** The haversine term [a] between a position and itself is [+0.0]. *)
Lemma haversine_a_zero (v : PyFloat.float) :
  is_finite v = true ->
  add zero (mul (mul (c_cos v) (c_cos v)) zero) = zero.
Proof.
  intros Hv. destruct (cos_range libm libm_C99 v Hv) as [Hvalid Hle].
  apply add_zero_zero, mul_finite_zero. now apply mul_unit_range.
Qed.

(** C8. For every position with finite coordinates,
    [haversine_distance (p, p)] returns [0.0]. *)
Theorem C8_distance_to_itself (latitude longitude : PyFloat.float) (w : world) :
  valid latitude = true -> is_finite latitude = true ->
  valid longitude = true -> is_finite longitude = true ->
  haversine_distance (latitude, longitude) (latitude, longitude) w
  = (Ret (Some zero), w).
Proof.
  intros Hv1 Hf1 Hv2 Hf2.
  pose proof (radians_finite latitude Hv1 Hf1) as Hlat.
  pose proof (radians_finite longitude Hv2 Hf2) as Hlon.
  unfold haversine_distance. cbn [fst snd].
  rewrite !sub_diag by assumption.
  change (div zero (of_int 2)) with zero.
  unfold try_except, bind.
  rewrite math_sin_zero. cbv beta iota.
  change (float_pow_2 zero w) with (Ret zero, w). cbv beta iota.
  rewrite math_cos_finite by exact Hlat. cbv beta iota.
  rewrite math_cos_finite by exact Hlat. cbv beta iota.
  rewrite math_sin_zero. cbv beta iota.
  change (float_pow_2 zero w) with (Ret zero, w). cbv beta iota.
  rewrite (haversine_a_zero _ Hlat).
  reflexivity.
Qed.

End Identity.

Lemma small_angle_C99 : C99 small_angle.
Proof. split; [reflexivity|]. intros v _. split; reflexivity. Qed.

Lemma C8_distance_to_itself_witness :
  valid (fst greenwich) = true /\ is_finite (fst greenwich) = true
  /\ valid (snd greenwich) = true /\ is_finite (snd greenwich) = true
  /\ haversine_distance (libm := small_angle) greenwich greenwich world0
     = (Ret (Some zero), world0).
Proof.
  repeat (split; [reflexivity|]).
  apply (C8_distance_to_itself (libm := small_angle) small_angle_C99
           (fst greenwich) (snd greenwich) world0); reflexivity.
Defined.

(* ================================================================== *)
(** * Reporter: the bounded retry *)
(* ================================================================== *)

Section Retry.
Variable E : env.
Variables (url : string) (p : payload) (max_retries timeout : Z).

Lemma requests_post_run (w : world) :
  requests_post E url p timeout w
  = (match env_post E (n_post w) with
     | Response status_code text => Ret (status_code, text)
     | PostRaises e => Raise e
     end, advance w [EvPost url p timeout] 0 1).
Proof.
  unfold requests_post, advance. rewrite Nat.add_0_r, Nat.add_1_r.
  now destruct (env_post E (n_post w)).
Qed.

(** One pass through the loop body whose POST fails in transport: the
    failure is printed and, unless this was the last attempt, the loop
    sleeps; then it goes on with the remaining attempts. *)
Lemma retry_loop_transport_failure (attempt : Z) (rest : list Z) (w : world) :
  transport_failure (env_post E (n_post w)) = true ->
  exists m,
    retry_loop E url p max_retries timeout (attempt :: rest) w
    = retry_loop E url p max_retries timeout rest
        (advance w ([EvPost url p timeout; EvPrint m]
                    ++ if attempt <? max_retries
                       then [EvPrint (MsgRetrying attempt max_retries); EvSleep 2]
                       else []) 0 1).
Proof.
  intros Hfail. cbn [retry_loop].
  unfold bind at 1. unfold try_except. unfold bind at 1.
  rewrite requests_post_run.
  destruct (env_post E (n_post w)) as [sc tx | [ | | | | | | r | ]]; try discriminate.
  cbn in Hfail.
  assert (Hh : is_HTTPError r = false) by (destruct r; try reflexivity; discriminate).
  rewrite Hh.
  destruct (is_ConnectionError r) eqn:Hc.
  - exists (MsgErrorConnecting r).
    destruct (attempt <? max_retries); py_run; reflexivity.
  - cbn in Hfail. rewrite Hfail.
    exists (MsgTimeoutError r).
    destruct (attempt <? max_retries); py_run; reflexivity.
Qed.

(** A pass whose POST is answered with an error status, or raises another
    exception of [requests], returns [True] at once. *)
Lemma retry_loop_terminal_error (attempt : Z) (rest : list Z) (w : world) :
  terminal_error (env_post E (n_post w)) = true ->
  exists m,
    retry_loop E url p max_retries timeout (attempt :: rest) w
    = (Ret true, advance w [EvPost url p timeout; EvPrint m] 0 1).
Proof.
  intros Hterm. cbn [retry_loop].
  unfold bind at 1. unfold try_except. unfold bind at 1.
  rewrite requests_post_run.
  destruct (env_post E (n_post w)) as [sc tx | [ | | | | | | r | ]]; try discriminate.
  - cbn in Hterm. unfold raise_for_status, bind. cbn [fst]. rewrite Hterm.
    exists (MsgHttpError HTTPError). py_run. reflexivity.
  - cbn in Hterm. apply andb_true_iff in Hterm as [Hc Ht].
    apply negb_true_iff in Hc, Ht.
    destruct (is_HTTPError r) eqn:Hh.
    + exists (MsgHttpError r). py_run. reflexivity.
    + rewrite Hc, Ht. exists (MsgRequestError r). py_run. reflexivity.
Qed.

(** When the next [k] POST requests all fail in transport, the loop runs
    through its next [k] attempts. *)
Lemma retry_loop_failures (k : nat) :
  forall (attempt : Z) (rest : list Z) (w : world),
    (forall j, (j < k)%nat ->
               transport_failure (env_post E (n_post w + j)) = true) ->
    attempt + Z.of_nat k <= max_retries + 1 ->
    exists evs,
      retry_loop E url p max_retries timeout (range_from attempt k ++ rest) w
      = retry_loop E url p max_retries timeout rest (advance w evs 0 k)
      /\ filter is_network evs
         = attempts_with_backoff url p timeout k
           ++ (if (attempt + Z.of_nat k <=? max_retries) && (0 <? Z.of_nat k)
               then [EvSleep 2] else []).
Proof.
  induction k as [|k IH]; intros attempt rest w Hfail Hle.
  { exists []. cbn [range_from app]. rewrite advance_nil.
    split; [reflexivity|]. cbn. now rewrite andb_false_r. }
  cbn [range_from app].
  destruct (retry_loop_transport_failure attempt (range_from (attempt + 1) k ++ rest) w)
    as [m Hstep].
  { rewrite <- (Nat.add_0_r (n_post w)). apply Hfail. lia. }
  rewrite Hstep.
  set (w1 := advance w _ 0 1).
  destruct (IH (attempt + 1) rest w1) as [evs [Hrun Hevs]].
  { intros j Hj. unfold w1. cbn [advance n_post].
    replace (n_post w + 1 + j)%nat with (n_post w + S j)%nat by lia.
    apply Hfail. lia. }
  { lia. }
  rewrite Hrun. unfold w1. rewrite advance_advance.
  eexists. split; [reflexivity|].
    rewrite !filter_app, Hevs. clear Hevs Hrun Hstep IH.
    destruct k as [|k].
    - replace (0 <? Z.of_nat 0) with false by reflexivity.
      replace (0 <? Z.of_nat 1) with true by reflexivity.
      rewrite andb_false_r, andb_true_r.
      assert (Heq : (attempt + Z.of_nat 1 <=? max_retries) = (attempt <? max_retries)).
      { destruct (Z.ltb_spec attempt max_retries);
          destruct (Z.leb_spec (attempt + Z.of_nat 1) max_retries); lia. }
      rewrite Heq. destruct (attempt <? max_retries); reflexivity.
    - assert (Hlt : (attempt <? max_retries) = true) by (apply Z.ltb_lt; lia).
      rewrite Hlt.
      replace (0 <? Z.of_nat (S k)) with true by (symmetry; apply Z.ltb_lt; lia).
      replace (0 <? Z.of_nat (S (S k))) with true by (symmetry; apply Z.ltb_lt; lia).
      replace (attempt + 1 + Z.of_nat (S k)) with (attempt + Z.of_nat (S (S k))) by lia.
      rewrite !andb_true_r. cbn [filter is_network app attempts_with_backoff].
      reflexivity.
Qed.

End Retry.

Lemma range_from_app (k m : nat) :
  forall lo, range_from lo (k + m) = range_from lo k ++ range_from (lo + Z.of_nat k) m.
Proof.
  induction k as [|k IH]; intros lo.
  - cbn. now rewrite Z.add_0_r.
  - cbn [Nat.add range_from app]. rewrite IH. do 3 f_equal. lia.
Qed.

Lemma filter_post_network (evs : list event) :
  filter is_post (filter is_network evs) = filter is_post evs.
Proof.
  induction evs as [|ev evs IH]; [reflexivity|].
  destruct ev; cbn; now rewrite ?IH.
Qed.

Lemma filter_post_attempts (url : string) (p : payload) (timeout : Z) (n : nat) :
  filter is_post (attempts_with_backoff url p timeout n)
  = repeat (EvPost url p timeout) n.
Proof.
  induction n as [|n IH]; [reflexivity|].
  cbn [attempts_with_backoff]. destruct n as [|n]; [reflexivity|].
  cbn [filter is_post]. now rewrite IH.
Qed.

(** C3. For every [max_retries = n >= 1], when each of the next [n] POST
    attempts ends in a connection failure or a timeout,
    [make_api_request_with_retry] returns [False] after exactly [n] attempts,
    and what it does on the network is [n] POST requests with one sleep of
    two seconds between consecutive requests and none after the last. *)
Theorem C3_retries_exhausted (E : env) (url : string) (p : payload)
    (n timeout : Z) (w : world) :
  1 <= n ->
  (forall j, (j < Z.to_nat n)%nat ->
             transport_failure (env_post E (n_post w + j)) = true) ->
  exists evs,
    make_api_request_with_retry E url p n timeout w
    = (Ret false, advance w evs 0 (Z.to_nat n))
    /\ filter is_network evs = attempts_with_backoff url p timeout (Z.to_nat n).
Proof.
  intros Hn Hfail.
  unfold make_api_request_with_retry, range.
  replace (n + 1 - 1) with n by lia.
  destruct (retry_loop_failures E url p n timeout (Z.to_nat n) 1 [] w Hfail)
    as [evs [Hrun Hevs]]; [lia|].
  rewrite app_nil_r in Hrun. rewrite Hrun.
  cbn [retry_loop]. py_run.
  eexists. split; [reflexivity|].
  rewrite filter_app, Hevs. cbn [filter is_network].
  replace (1 + Z.of_nat (Z.to_nat n) <=? n) with false
    by (symmetry; apply Z.leb_gt; lia).
  now rewrite !app_nil_r.
Qed.

Lemma C3_retries_exhausted_witness :
  1 <= 3 /\
  (forall j, (j < Z.to_nat 3)%nat ->
             transport_failure (env_post env_timing_out (n_post world0 + j)) = true) /\
  exists evs,
    make_api_request_with_retry env_timing_out "u" sample_payload 3 10 world0
    = (Ret false, advance world0 evs 0 (Z.to_nat 3))
    /\ filter is_network evs = attempts_with_backoff "u" sample_payload 10 (Z.to_nat 3).
Proof.
  split; [lia|]. split; [intros j _; reflexivity|].
  apply (C3_retries_exhausted env_timing_out "u" sample_payload 3 10 world0).
  - lia.
  - intros j _. reflexivity.
Defined.

(** C4. When an attempt of [make_api_request_with_retry] is answered with an
    HTTP error status (4xx / 5xx) or raises an exception of the transport
    layer other than a connection failure or a timeout, the function returns
    [True] on that attempt: after [k] attempts that failed in transport, the
    attempt [k + 1] is the last POST request, whatever [max_retries] is. *)
Theorem C4_terminal_error_returns_sent (E : env) (url : string) (p : payload)
    (n timeout : Z) (w : world) (k : nat) :
  Z.of_nat k < n ->
  (forall j, (j < k)%nat ->
             transport_failure (env_post E (n_post w + j)) = true) ->
  terminal_error (env_post E (n_post w + k)) = true ->
  exists evs,
    make_api_request_with_retry E url p n timeout w
    = (Ret true, advance w evs 0 (S k))
    /\ filter is_post evs = repeat (EvPost url p timeout) (S k).
Proof.
  intros Hk Hfail Hterm.
  unfold make_api_request_with_retry, range.
  replace (Z.to_nat (n + 1 - 1)) with (k + S (Z.to_nat n - S k))%nat by lia.
  rewrite range_from_app. cbn [range_from].
  destruct (retry_loop_failures E url p n timeout k 1
              ((1 + Z.of_nat k) :: range_from (1 + Z.of_nat k + 1) (Z.to_nat n - S k))
              w Hfail) as [evs [Hrun Hevs]]; [lia|].
  rewrite Hrun.
  destruct (retry_loop_terminal_error E url p n timeout (1 + Z.of_nat k)
              (range_from (1 + Z.of_nat k + 1) (Z.to_nat n - S k))
              (advance w evs 0 k)) as [m Hlast].
  { exact Hterm. }
  rewrite Hlast, advance_advance.
  replace (k + 1)%nat with (S k) by lia.
  eexists. split; [reflexivity|].
  rewrite filter_app, <- filter_post_network, Hevs, filter_app, filter_post_attempts.
  replace (S k) with (k + 1)%nat by lia. rewrite repeat_app.
  destruct ((1 + Z.of_nat k <=? n) && (0 <? Z.of_nat k)); cbn; now rewrite ?app_nil_r.
Qed.

Lemma C4_terminal_error_returns_sent_witness :
  Z.of_nat 0 < 3 /\
  terminal_error (env_post env_rejecting (n_post world0 + 0)) = true /\
  exists evs,
    make_api_request_with_retry env_rejecting "u" sample_payload 3 10 world0
    = (Ret true, advance world0 evs 0 1)
    /\ filter is_post evs = repeat (EvPost "u" sample_payload 10) 1.
Proof.
  split; [reflexivity|]. split; [reflexivity|].
  apply (C4_terminal_error_returns_sent env_rejecting "u" sample_payload 3 10 world0 0).
  - reflexivity.
  - intros j Hj. inversion Hj.
  - reflexivity.
Defined.

(* ================================================================== *)
(** * Listener: one iteration *)
(* ================================================================== *)

Section Listener.
Context {libm : Libm}.
Variable E : env.
Variable cfg : config.

(** With the default [max_retries = 1] a dispatch is one POST request
    followed by what the function prints about it; the reply to that request
    decides what the dispatch returns. *)
Lemma make_api_request_once (url : string) (p : payload) (timeout : Z) (w : world) :
  exists evs,
    make_api_request_with_retry E url p default_max_retries timeout w
    = (single_attempt_result (env_post E (n_post w)),
       advance w (EvPost url p timeout :: evs) 0 1)
    /\ forallb is_print evs = true.
Proof.
  unfold make_api_request_with_retry, default_max_retries, range.
  change (range_from 1 (Z.to_nat (1 + 1 - 1))) with [1].
  destruct (transport_failure (env_post E (n_post w))) eqn:Hfail.
  { destruct (retry_loop_transport_failure E url p 1 timeout 1 [] w Hfail) as [m Hstep].
    rewrite Hstep. cbn [retry_loop Z.ltb Z.compare Pos.compare Pos.compare_cont app].
    py_run.
    destruct (env_post E (n_post w)) as [sc tx | [ | | | | | | r | ]]; try discriminate.
    cbn in Hfail. cbn [single_attempt_result]. rewrite Hfail.
    assert (Hh : is_HTTPError r = false) by (destruct r; try reflexivity; discriminate).
    rewrite Hh. eexists. split; reflexivity. }
  cbn [retry_loop].
  unfold bind at 1. unfold try_except. unfold bind at 1.
  rewrite requests_post_run.
  destruct (env_post E (n_post w)) as [sc tx | e].
  - unfold raise_for_status, bind. cbn [fst snd single_attempt_result].
    destruct ((400 <=? sc) && (sc <? 600)); py_run;
      eexists; (split; reflexivity).
  - destruct e as [ | | | | | | r | ];
      try (exists []; split; reflexivity).
    cbn in Hfail. cbn [single_attempt_result]. rewrite Hfail.
    apply orb_false_iff in Hfail as [Hc Ht].
    rewrite Hc, Ht.
    destruct (is_HTTPError r); py_run;
      eexists; (split; reflexivity).
Qed.

Lemma time_time_run (w : world) :
  time_time E w = (Ret (env_time E (n_time w)),
                   advance w [EvTime (env_time E (n_time w))] 1 0).
Proof.
  unfold time_time, advance. now rewrite Nat.add_0_r, Nat.add_1_r.
Qed.

Lemma convert_to_osgb36_run (latitude longitude : PyFloat.float) (w : world) :
  convert_to_osgb36 E latitude longitude w
  = match env_transform E longitude latitude with
    | Ret en => (Ret (Some en), advance w [EvTransform longitude latitude] 0 0)
    | Raise e => (Ret None, advance w [EvTransform longitude latitude;
                                       EvPrint (MsgErrorConverting e)] 0 0)
    end.
Proof.
  unfold convert_to_osgb36, try_except, pyproj_transform, except_Exception.
  py_run.
  destruct (env_transform E longitude latitude) as [[easting northing]|e];
    py_run; reflexivity.
Qed.

(** The loop body always goes one of the ways of [iteration]. *)
Lemma loop_body_iteration (st : state) (d : datagram) (w : world) o w' :
  loop_body E cfg st d w = (o, w') -> iteration E cfg st d w o w'.
Proof.
  destruct d as [data|]; [|intros [= <- <-]; apply it_undecodable].
  unfold loop_body, decode. unfold bind at 1. unfold ret at 1.
  destruct (String.eqb_spec data "") as [->|Hdata];
    [intros [= <- <-]; apply it_end_of_stream|].
  destruct (parse_nmea_sentence_run (filter_nmea_sentence data))
    as [[[[latitude longitude] accuracy]|] [evs [Hparse [Hquiet Hprints]]]].
  2:{ unfold bind. rewrite Hparse. intros [= <- <-]. now apply it_no_fix. }
  rewrite Hquiet in Hparse by congruence.
  assert (Hfix : fix_of data latitude longitude accuracy).
  { split; [exact Hdata|]. intros w0. now rewrite Hparse, advance_nil. }
  unfold bind at 1. rewrite (proj2 Hfix).
  destruct (le_int accuracy 100) eqn:Hacc.
  2:{ intros [= <- <-]. eapply it_inaccurate; eassumption. }
  unfold bind at 1. rewrite convert_to_osgb36_run.
  destruct (env_transform E longitude latitude) as [[easting northing]|e] eqn:Htr.
  2:{ unfold unpack, bind, raise. intros [= <- <-].
      eapply it_projection_fails; eassumption. }
  unfold unpack. unfold bind at 1. unfold ret at 1.
  destruct (is_finite easting && is_finite northing) eqn:Hfin.
  2:{ destruct (is_finite easting) eqn:He.
      - destruct (math_floor_not_finite northing Hfin) as [e Hfl].
        rewrite (math_floor_finite easting He), Hfl.
        unfold bind, ret, raise. intros [= <- <-].
        eapply it_projection_not_finite; try eassumption. now rewrite He.
      - destruct (math_floor_not_finite easting He) as [e Hfl]. rewrite Hfl.
        unfold bind, raise. intros [= <- <-].
        eapply it_projection_not_finite; try eassumption. now rewrite He. }
  apply andb_true_iff in Hfin as Hfin'. destruct Hfin' as [He Hn].
  rewrite (math_floor_finite easting He), (math_floor_finite northing Hn).
  unfold bind at 1. unfold ret at 1. unfold bind at 1. unfold ret at 1.
  destruct (has_moved_run (previous_position st) (latitude, longitude)
              (distance_limit cfg))
    as [[distance [Hdist Hmoved]] | [evs' [Hdist [Hmoved Hprints']]]].
  2:{ unfold bind. rewrite Hmoved, advance_advance. intros [= <- <-].
      eapply it_no_distance; eassumption. }
  unfold bind at 1. rewrite Hmoved.
  unfold bind at 1. rewrite time_time_run, advance_advance. cbv beta iota.
  rewrite !n_time_advance, !Nat.add_0_r.
  set (current_time := env_time E (n_time w)).
  destruct (is_finite (sub current_time (last_request_time st))) eqn:Helapsed.
  2:{ destruct (math_floor_not_finite _ Helapsed) as [e Hfl]. rewrite Hfl.
      unfold bind, raise. intros [= <- <-].
      eapply it_elapsed_not_finite; eassumption. }
  rewrite (math_floor_finite _ Helapsed).
  unfold bind at 1. unfold ret at 1.
  unfold bind at 1. unfold logging_info at 1. rewrite emit_run, advance_advance.
  unfold bind at 1. unfold logging_info at 1. rewrite emit_run, advance_advance.
  cbn [app Nat.add].
  destruct (due cfg (gt_int distance (distance_limit cfg))
              (sub current_time (last_request_time st))) eqn:Hdue.
  2:{ pose proof (it_skip E cfg st data w latitude longitude accuracy easting
                    northing distance Hfix Hacc Htr Hfin Hdist Helapsed Hdue) as Hit.
      unfold before_decision in Hit. fold current_time in Hit.
      unfold due in Hdue.
      destruct (gt_int distance (distance_limit cfg)); rewrite Hdue;
        intros [= <- <-]; exact Hit. }
  set (flag := gt_int distance (distance_limit cfg)) in *.
  set (p := report_payload cfg (floor easting) (floor northing)).
  destruct (make_api_request_with_retry E (api_url cfg) p
              default_max_retries default_timeout_seconds
              (advance w (before_decision st latitude longitude current_time flag
                          ++ [EvLogInfo (making_request flag p)]) 1 0))
    as [o1 w1] eqn:Hapi.
  pose proof (it_dispatch E cfg st data w latitude longitude accuracy easting
                northing distance o1 w1 Hfix Hacc Htr Hfin Hdist Helapsed Hdue Hapi)
    as Hit.
  subst p. unfold before_decision, making_request, report_payload in Hapi.
  cbn [app] in Hapi.
  unfold due in Hdue.
  destruct flag; rewrite Hdue;
    unfold bind at 1; unfold logging_info at 1;
    rewrite emit_run, advance_advance; cbn [app Nat.add];
    unfold bind; rewrite Hapi;
    (destruct o1 as [[|]|e]; intros [= <- <-]; exact Hit).
Qed.

Lemma fix_of_intro data w w' latitude longitude accuracy :
  data <> ""%string ->
  parse_nmea_sentence (filter_nmea_sentence data) w
  = (Ret (Some (latitude, longitude, accuracy)), w') ->
  fix_of data latitude longitude accuracy.
Proof.
  intros Hdata Hparse. split; [exact Hdata|].
  now destruct (parse_nmea_sentence_fix _ _ _ _ _ Hparse eq_refl).
Qed.

Lemma fix_of_unique data lat1 lon1 acc1 lat2 lon2 acc2 :
  fix_of data lat1 lon1 acc1 -> fix_of data lat2 lon2 acc2 ->
  lat1 = lat2 /\ lon1 = lon2 /\ acc1 = acc2.
Proof.
  intros [_ H1] [_ H2]. specialize (H1 world0). rewrite H2 in H1.
  injection H1 as -> -> ->. auto.
Qed.

Lemma due_report_due (st : state) (distance elapsed : PyFloat.float) :
  due cfg (gt_int distance (distance_limit cfg)) elapsed
  = report_due cfg distance elapsed.
Proof.
  unfold due, report_due.
  destruct (gt_int distance (distance_limit cfg)); cbn;
    now rewrite ?orb_false_r.
Qed.

(** C1 (the code departs from the claim).  When the projection fails on an
    accepted fix, [convert_to_osgb36] catches the exception and returns
    [None]; the loop body then unpacks that [None], which raises
    [TypeError], and the listening loop ends with this exception: the cycle
    is not skipped and the datagrams that follow are never read. *)
Theorem C1_projection_failure_ends_loop (st : state) (data : string)
    (rest : list datagram) (w : world) latitude longitude accuracy e :
  fix_of data latitude longitude accuracy ->
  le_int accuracy 100 = true ->
  env_transform E longitude latitude = Raise e ->
  listen E cfg st (Text data :: rest) w
  = (Raise TypeError,
     advance w [EvTransform longitude latitude;
                EvPrint (MsgErrorConverting e)] 0 0).
Proof.
  intros [Hdata Hparse] Hacc Htr.
  cbn [listen]. unfold bind at 1.
  unfold loop_body, decode. unfold bind at 1. unfold ret at 1.
  destruct (String.eqb_spec data "") as [->|_]; [contradiction|].
  unfold bind at 1. rewrite Hparse, Hacc.
  unfold bind at 1. rewrite convert_to_osgb36_run, Htr.
  reflexivity.
Qed.

(** C2, as the code has it.  The decision is taken only in the iterations
    that reach it: for an accepted fix whose projection returned finite
    coordinates, whose distance from the previous reported position is
    defined and whose elapsed time is finite, the loop body attempts a
    dispatch exactly when the fix has moved (distance strictly greater than
    [distance_limit]) and the elapsed time has reached [moving_time_limit],
    or it has not moved and the elapsed time has reached
    [stationary_time_limit]; otherwise the cycle ends without any POST
    request and with the state as it was. *)
Theorem C2_report_decision (st : state) (data : string) (w : world)
    latitude longitude accuracy easting northing distance o w' :
  fix_of data latitude longitude accuracy ->
  le_int accuracy 100 = true ->
  env_transform E longitude latitude = Ret (easting, northing) ->
  is_finite easting && is_finite northing = true ->
  distance_is (previous_position st) (latitude, longitude) distance ->
  let elapsed := sub (env_time E (n_time w)) (last_request_time st) in
  is_finite elapsed = true ->
  loop_body E cfg st (Text data) w = (o, w') ->
  let moved := gt_int distance (distance_limit cfg) in
  let report :=
    (moved && ge_int elapsed (moving_time_limit cfg))
    || (negb moved && ge_int elapsed (stationary_time_limit cfg)) in
  exists evs,
    w' = advance w evs 1 (if report then 1 else 0)
    /\ existsb is_post evs = report
    /\ (report = false -> o = Ret (Continue, st)).
Proof.
  intros Hfix Hacc Htr Hfin Hdist elapsed Helapsed Hrun moved report.
  assert (Hreport : report = report_due cfg distance elapsed) by reflexivity.
  clearbody report. subst report.
  apply loop_body_iteration in Hrun.
  inversion Hrun as
    [ | | ? ? ? Hd Hnone | ? ? ? ? ? Hfix' Hacc'
    | ? ? ? ? ? ? Hfix' _ Htr' | ? ? ? ? ? ? ? ? Hfix' _ Htr' Hfin'
    | ? ? ? ? ? ? ? ? Hfix' _ Htr' _ Hnone
    | ? ? ? ? ? ? ? ? ? Hfix' _ Htr' _ Hdist' Hel'
    | ? ? ? ? ? ? ? ? Hfix' _ Htr' _ Hdist' ? ? ? _ Hdue
    | ? ? ? ? ? ? ? ? o1 ? Hfix' _ Htr' _ Hdist' ? ? ? ? _ Hdue Hapi ];
    subst;
    try (destruct Hfix as [Hne _]; contradiction);
    try (destruct Hfix as [_ Hp]; specialize (Hp world0);
         rewrite Hnone in Hp; discriminate);
    destruct (fix_of_unique _ _ _ _ _ _ _ Hfix Hfix') as [<- [<- <-]];
    try congruence;
    rewrite Htr in Htr'; try discriminate;
    injection Htr' as <- <-; try congruence.
  - specialize (Hdist world0). rewrite Hnone in Hdist. discriminate.
  - repeat match goal with x := _ |- _ => subst x end. congruence.
  - specialize (Hdist world0). rewrite Hdist' in Hdist. injection Hdist as ->.
    repeat match goal with x := _ |- _ => subst x end.
    rewrite (due_report_due st) in Hdue. rewrite Hdue.
    eexists. split; [reflexivity|]. split; [reflexivity|reflexivity].
  - specialize (Hdist world0). rewrite Hdist' in Hdist. injection Hdist as ->.
    repeat match goal with x := _ |- _ => subst x end.
    rewrite (due_report_due st) in Hdue. rewrite Hdue.
    destruct (make_api_request_once (api_url cfg)
                (report_payload cfg (floor easting) (floor northing))
                default_timeout_seconds
                (advance w
                   (before_decision st latitude longitude (env_time E (n_time w))
                      (gt_int distance (distance_limit cfg))
                    ++ [EvLogInfo
                          (making_request (gt_int distance (distance_limit cfg))
                             (report_payload cfg (floor easting) (floor northing)))])
                   1 0)) as [evs [Hone Hprints]].
    rewrite Hone in Hapi. injection Hapi as <- <-.
    rewrite advance_advance. eexists. split; [reflexivity|].
    split; [|discriminate].
    rewrite existsb_app. apply orb_true_iff. right. reflexivity.
Qed.

(** C6. A datagram whose parse gives no fix, or whose parsed accuracy
    exceeds 100, ends the iteration at once: nothing is emitted beyond what
    the parser printed (no projection, no clock reading, no log line of the
    decision, no POST request) and the state is returned as it was. *)
Theorem C6_rejected_datagram_is_skipped (st : state) (data : string)
    (w w1 : world) (r : option (PyFloat.float * PyFloat.float * PyFloat.float)) :
  parse_nmea_sentence (filter_nmea_sentence data) w = (Ret r, w1) ->
  r = None
  \/ (exists latitude longitude accuracy,
        r = Some (latitude, longitude, accuracy) /\ gt_int accuracy 100 = true) ->
  exists ctl evs,
    loop_body E cfg st (Text data) w = (Ret (ctl, st), advance w evs 0 0)
    /\ forallb is_parse_print evs = true.
Proof.
  intros Hparse Hrejected.
  unfold loop_body, decode. unfold bind at 1. unfold ret at 1.
  destruct (String.eqb_spec data "") as [->|Hdata].
  { exists Break, []. now rewrite advance_nil. }
  destruct (parse_nmea_sentence_run (filter_nmea_sentence data))
    as [r' [evs [Hrun [Hquiet Hprints]]]].
  rewrite Hrun in Hparse. injection Hparse as -> <-.
  unfold bind at 1. rewrite Hrun.
  destruct Hrejected as [-> | [latitude [longitude [accuracy [-> Hacc]]]]].
  - exists Continue, evs. now split.
  - rewrite (gt_int_not_le_int _ _ Hacc). exists Continue, evs. now split.
Qed.

(** C5. In every iteration that completes, either no dispatch was attempted
    and the state is unchanged, or one dispatch was attempted and the two
    fields are both set (to the position of the fix and to the time of the
    decision) when it returned [True], and both left as they were when it
    returned [False]. *)
Theorem C5_state_updated_iff_sent (st : state) (d : datagram) (w : world)
    ctl st' w' :
  loop_body E cfg st d w = (Ret (ctl, st'), w') ->
  (n_post w' = n_post w /\ st' = st)
  \/ (exists data latitude longitude accuracy p w1 result,
        d = Text data
        /\ fix_of data latitude longitude accuracy
        /\ n_post w1 = n_post w
        /\ make_api_request_with_retry E (api_url cfg) p
             default_max_retries default_timeout_seconds w1
           = (Ret result, w')
        /\ st' = if result
                 then {| previous_position := (latitude, longitude);
                         last_request_time := env_time E (n_time w) |}
                 else st).
Proof.
  intros Hrun. apply loop_body_iteration in Hrun.
  inversion Hrun as
    [ | | | | | | |
    | ? ? ? ? ? ? ? ? Hfix _ _ _ _ ? ? ? _ _
    | ? ? ? ? ? ? ? ? o1 ? Hfix _ _ _ _ ? ? ? ? _ _ Hapi Hd Hw Ho ];
    subst; try (left; split; [cbn; lia | reflexivity]).
  right. destruct o1 as [result|e]; [|discriminate].
  injection Ho as <- <-.
  exists data, latitude, longitude, accuracy. eexists _, _, result.
  split; [reflexivity|]. split; [exact Hfix|].
  split; [|split; [exact Hapi|reflexivity]].
  apply Nat.add_0_r.
Qed.

(** C10. When the dispatch of an iteration returns [True], the time stored
    in [last_request_time] is the one reading of the clock that the iteration
    took, and that reading precedes every POST request and every sleep of the
    dispatch: it is the time at which the dispatch was decided, not the time
    at which it completed. *)
Theorem C10_report_time_is_decision_time (st : state) (d : datagram) (w : world)
    ctl st' w' p w1 :
  loop_body E cfg st d w = (Ret (ctl, st'), w') ->
  n_post w1 = n_post w ->
  make_api_request_with_retry E (api_url cfg) p
      default_max_retries default_timeout_seconds w1
  = (Ret true, w') ->
  last_request_time st' = env_time E (n_time w)
  /\ n_time w' = S (n_time w)
  /\ exists pre post,
       trace w' = trace w ++ pre ++ EvTime (last_request_time st') :: post
       /\ existsb is_network pre = false
       /\ existsb is_time post = false
       /\ existsb is_post post = true.
Proof.
  intros Hrun Hposts Hsent.
  destruct (make_api_request_once (api_url cfg) p default_timeout_seconds w1)
    as [evs1 [Hone1 _]].
  rewrite Hone1 in Hsent. injection Hsent as Hresult Hw'.
  assert (Hcount : n_post w' = S (n_post w)).
  { rewrite <- Hw', n_post_advance. lia. }
  clear Hw'.
  apply loop_body_iteration in Hrun.
  inversion Hrun as
    [ | | | | | | |
    | ? ? ? ? ? ? ? ? _ _ _ _ _ ? ? ? _ _
    | ? ? ? ? ? ? ? ? o1 ? _ _ _ _ _ ? ? ? ? _ _ Hapi Hd Hw Ho ];
    subst; try (rewrite ?n_post_advance in Hcount; lia).
  repeat match goal with x := _ |- _ => subst x end.
  match type of Hapi with
  | make_api_request_with_retry _ ?url ?p0 _ ?t ?w0 = _ =>
      destruct (make_api_request_once url p0 t w0) as [evs [Hone Hprints]]
  end.
  rewrite Hone in Hapi. injection Hapi as <- <-.
  rewrite ?n_post_advance, ?Nat.add_0_r in Ho. rewrite <- Hposts, Hresult in Ho.
  injection Ho as <- <-.
  cbn [last_request_time reported].
  split; [reflexivity|]. split; [rewrite !n_time_advance; lia|].
  exists [EvTransform longitude latitude]. eexists.
  split.
  { rewrite advance_advance, trace_advance. unfold before_decision.
    cbn [app]. reflexivity. }
  split; [reflexivity|].
  cbn [existsb is_time is_post orb].
  split; [|reflexivity].
  clear - Hprints. induction evs as [|ev evs IH]; [reflexivity|].
  cbn in Hprints. apply andb_true_iff in Hprints as [Hev Hevs].
  cbn. rewrite (IH Hevs). now destruct ev.
Qed.

End Listener.

(** ** The claims at the sample datagram *)

Lemma sample_fix :
  fix_of sample_datagram sample_latitude sample_longitude sample_accuracy.
Proof.
  apply (fix_of_intro sample_datagram world0 world0);
    [discriminate | vm_compute; reflexivity].
Defined.

Lemma sample_distance_is :
  distance_is (libm := small_angle) (previous_position sample_state)
    (sample_latitude, sample_longitude) sample_distance.
Proof.
  apply (distance_is_intro (libm := small_angle) _ _ world0 world0).
  vm_compute. reflexivity.
Defined.

Lemma sample_iteration :
  loop_body (libm := small_angle) env_accepting sample_config sample_state
    (Text sample_datagram) world0
  = (Ret (Continue, reported sample_latitude sample_longitude (of_int 1000)),
     snd (loop_body (libm := small_angle) env_accepting sample_config
            sample_state (Text sample_datagram) world0)).
Proof. vm_compute. reflexivity. Defined.

Lemma sample_dispatch :
  make_api_request_with_retry env_accepting (api_url sample_config) sample_report
    default_max_retries default_timeout_seconds sample_dispatch_world
  = (Ret true,
     snd (loop_body (libm := small_angle) env_accepting sample_config
            sample_state (Text sample_datagram) world0)).
Proof. vm_compute. reflexivity. Defined.

Lemma C1_projection_failure_ends_loop_witness :
  fix_of sample_datagram sample_latitude sample_longitude sample_accuracy
  /\ le_int sample_accuracy 100 = true
  /\ env_transform env_no_projection sample_longitude sample_latitude
     = Raise ProjError
  /\ listen (libm := small_angle) env_no_projection sample_config sample_state
       [Text sample_datagram; Text sample_datagram] world0
     = (Raise TypeError,
        advance world0 [EvTransform sample_longitude sample_latitude;
                        EvPrint (MsgErrorConverting ProjError)] 0 0).
Proof.
  split; [exact sample_fix|]. split; [reflexivity|]. split; [reflexivity|].
  apply (C1_projection_failure_ends_loop (libm := small_angle)
           env_no_projection sample_config sample_state sample_datagram
           [Text sample_datagram] world0
           sample_latitude sample_longitude sample_accuracy ProjError).
  - exact sample_fix.
  - reflexivity.
  - reflexivity.
Defined.

Lemma C2_report_decision_witness :
  exists evs,
    snd (loop_body (libm := small_angle) env_accepting sample_config
           sample_state (Text sample_datagram) world0)
    = advance world0 evs 1 1
    /\ existsb is_post evs = true.
Proof.
  destruct (C2_report_decision (libm := small_angle) env_accepting sample_config
              sample_state sample_datagram world0
              sample_latitude sample_longitude sample_accuracy
              (of_int 530000) (of_int 180000) sample_distance
              (fst (loop_body (libm := small_angle) env_accepting sample_config
                      sample_state (Text sample_datagram) world0))
              (snd (loop_body (libm := small_angle) env_accepting sample_config
                      sample_state (Text sample_datagram) world0)))
    as [evs [Hw [Hposted _]]].
  - exact sample_fix.
  - reflexivity.
  - reflexivity.
  - reflexivity.
  - exact sample_distance_is.
  - reflexivity.
  - apply surjective_pairing.
  - exists evs. split; [exact Hw | exact Hposted].
Defined.

(** C2 as stated fails for an accepted fix that the iteration cannot carry
    to its decision.  The datagram below has a fix of accuracy 0.9; the
    projection returns infinite coordinates for its latitude of 99 degrees,
    [math.floor] raises [OverflowError] on them, and the iteration ends with
    that exception after the call of the projection, whatever the C library
    is: it neither dispatches nor skips.  With the sample configuration a
    report was due: the fix is farther than [distance_limit] from the
    previous position and the moving time limit has passed. *)
Lemma C2_out_of_range_fix_is_not_decided :
  fix_of out_of_range_datagram (of_int 99) sample_longitude sample_accuracy
  /\ le_int sample_accuracy 100 = true
  /\ (forall libm : Libm,
        loop_body (libm := libm) env_out_of_range sample_config sample_state
          (Text out_of_range_datagram) world0
        = (Raise OverflowError,
           advance world0 [EvTransform sample_longitude (of_int 99)] 0 0))
  /\ exists distance,
       distance_is (libm := small_angle) (previous_position sample_state)
         (of_int 99, sample_longitude) distance
       /\ report_due sample_config distance
            (sub (env_time env_out_of_range (n_time world0))
                 (last_request_time sample_state)) = true.
Proof.
  split.
  { apply (fix_of_intro out_of_range_datagram world0 world0);
      [discriminate | vm_compute; reflexivity]. }
  split; [reflexivity|].
  split; [intros libm; vm_compute; reflexivity|].
  eexists. split.
  - apply (distance_is_intro (libm := small_angle) _ _ world0 world0).
    vm_compute. reflexivity.
  - vm_compute. reflexivity.
Qed.

Lemma C6_rejected_datagram_is_skipped_witness :
  parse_nmea_sentence (filter_nmea_sentence unsupported_datagram) world0
  = (Ret None, world0)
  /\ exists ctl evs,
       loop_body (libm := small_angle) env_accepting sample_config sample_state
         (Text unsupported_datagram) world0
       = (Ret (ctl, sample_state), advance world0 evs 0 0)
       /\ forallb is_parse_print evs = true.
Proof.
  split; [reflexivity|].
  apply (C6_rejected_datagram_is_skipped (libm := small_angle) env_accepting
           sample_config sample_state unsupported_datagram world0 world0 None).
  - reflexivity.
  - left. reflexivity.
Defined.

Lemma C5_state_updated_iff_sent_witness :
  let w' := snd (loop_body (libm := small_angle) env_accepting sample_config
                   sample_state (Text sample_datagram) world0) in
  let st' := reported sample_latitude sample_longitude (of_int 1000) in
  (n_post w' = n_post world0 /\ st' = sample_state)
  \/ (exists data latitude longitude accuracy p w1 result,
        Text sample_datagram = Text data
        /\ fix_of data latitude longitude accuracy
        /\ n_post w1 = n_post world0
        /\ make_api_request_with_retry env_accepting (api_url sample_config) p
             default_max_retries default_timeout_seconds w1
           = (Ret result, w')
        /\ st' = if result
                 then {| previous_position := (latitude, longitude);
                         last_request_time :=
                           env_time env_accepting (n_time world0) |}
                 else sample_state).
Proof.
  exact (C5_state_updated_iff_sent (libm := small_angle) env_accepting
           sample_config sample_state (Text sample_datagram) world0
           Continue _ _ sample_iteration).
Defined.

Lemma C10_report_time_is_decision_time_witness :
  let w' := snd (loop_body (libm := small_angle) env_accepting sample_config
                   sample_state (Text sample_datagram) world0) in
  let st' := reported sample_latitude sample_longitude (of_int 1000) in
  last_request_time st' = env_time env_accepting (n_time world0)
  /\ n_time w' = S (n_time world0)
  /\ exists pre post,
       trace w' = trace world0 ++ pre ++ EvTime (last_request_time st') :: post
       /\ existsb is_network pre = false
       /\ existsb is_time post = false
       /\ existsb is_post post = true.
Proof.
  exact (C10_report_time_is_decision_time (libm := small_angle) env_accepting
           sample_config sample_state (Text sample_datagram) world0
           Continue _ _ sample_report sample_dispatch_world
           sample_iteration eq_refl sample_dispatch).
Defined.

(** A run of [main]: the sample fix is reported, a datagram without a GPGGA
    line is skipped, and an empty datagram ends the loop. *)
Example main_sample_run :
  fst (main (libm := small_angle) env_accepting sample_config
         [Text sample_datagram; Text unsupported_datagram; Text ""] world0)
  = Ret (reported sample_latitude sample_longitude (of_int 1100)).
Proof. vm_compute. reflexivity. Qed.

(* ================================================================== *)
(** * Reporter: every way the retry can end *)
(* ================================================================== *)

Section RetryOutcome.
Variable E : env.
Variables (url : string) (p : payload) (max_retries timeout : Z).

(** A pass whose POST does not fail in transport ends the loop. *)
Lemma retry_loop_returns (attempt : Z) (rest : list Z) (w : world) :
  transport_failure (env_post E (n_post w)) = false ->
  exists evs,
    retry_loop E url p max_retries timeout (attempt :: rest) w
    = (single_attempt_result (env_post E (n_post w)),
       advance w (EvPost url p timeout :: evs) 0 1)
    /\ forallb is_print evs = true.
Proof.
  intros Hfail. cbn [retry_loop].
  unfold bind at 1. unfold try_except. unfold bind at 1.
  rewrite requests_post_run.
  destruct (env_post E (n_post w)) as [sc tx | e].
  - unfold raise_for_status, bind. cbn [fst snd single_attempt_result].
    destruct ((400 <=? sc) && (sc <? 600)); py_run;
      eexists; (split; reflexivity).
  - destruct e as [ | | | | | | r | ];
      try (exists []; split; reflexivity).
    cbn in Hfail. cbn [single_attempt_result]. rewrite Hfail.
    apply orb_false_iff in Hfail as [Hc Ht].
    rewrite Hc, Ht.
    destruct (is_HTTPError r); py_run;
      eexists; (split; reflexivity).
Qed.

Lemma attempts_with_backoff_S (n : nat) :
  attempts_with_backoff url p timeout (S (S n))
  = EvPost url p timeout :: EvSleep 2 :: attempts_with_backoff url p timeout (S n).
Proof. reflexivity. Qed.

Lemma filter_network_prints (evs : list event) :
  forallb is_print evs = true -> filter is_network evs = [].
Proof.
  induction evs as [|ev evs IH]; [reflexivity|].
  cbn [forallb]. intros H. apply andb_true_iff in H as [Hev Hevs].
  destruct ev; try discriminate. cbn. now apply IH.
Qed.

(** How the loop over the attempts [attempt, ..., max_retries] ends: every
    attempt failed in transport and the loop is exhausted, or the first
    attempt that did not fail in transport decided the result. *)
Lemma retry_loop_outcome (m : nat) :
  forall (attempt : Z) (w : world),
    ((0 < m)%nat -> attempt + Z.of_nat m = max_retries + 1) ->
    exists o posts evs,
      retry_loop E url p max_retries timeout (range_from attempt m) w
      = (o, advance w evs 0 posts)
      /\ filter is_network evs = attempts_with_backoff url p timeout posts
      /\ ((o = Ret false /\ posts = m
           /\ forall j, (j < m)%nat ->
                        transport_failure (env_post E (n_post w + j)) = true)
          \/ (exists k, (k < m)%nat /\ posts = S k
                /\ (forall j, (j < k)%nat ->
                       transport_failure (env_post E (n_post w + j)) = true)
                /\ transport_failure (env_post E (n_post w + k)) = false
                /\ o = single_attempt_result (env_post E (n_post w + k)))).
Proof.
  induction m as [|m IH]; intros attempt w Hlast.
  { exists (Ret false), 0%nat, [EvPrint MsgMaxRetriesReached].
    split; [cbn [range_from retry_loop]; py_run; reflexivity|].
    split; [reflexivity|]. left. split; [reflexivity|]. split; [reflexivity|].
    intros j Hj. inversion Hj. }
  cbn [range_from]. specialize (Hlast (Nat.lt_0_succ m)).
  destruct (transport_failure (env_post E (n_post w))) eqn:Hfail.
  2:{ destruct (retry_loop_returns attempt (range_from (attempt + 1) m) w Hfail)
        as [evs [Hrun Hprints]].
      eexists. exists 1%nat. eexists. split; [exact Hrun|].
      split; [cbn [filter is_network]; now rewrite filter_network_prints|].
      right. exists 0%nat. rewrite Nat.add_0_r.
      split; [lia|]. split; [reflexivity|]. split; [|split; [exact Hfail|reflexivity]].
      intros j Hj. inversion Hj. }
  destruct (retry_loop_transport_failure E url p max_retries timeout attempt
              (range_from (attempt + 1) m) w Hfail) as [msg Hstep].
  rewrite Hstep. set (w1 := advance w _ 0 1).
  destruct (IH (attempt + 1) w1) as [o [posts [evs [Hrun [Hnet Hcases]]]]]; [lia|].
  rewrite Hrun. unfold w1. rewrite advance_advance.
  assert (Hshift : forall j, (n_post w1 + j = n_post w + S j)%nat).
  { intros j. unfold w1. rewrite n_post_advance. lia. }
  assert (Hall : forall k,
             (forall j, (j < k)%nat ->
                transport_failure (env_post E (n_post w1 + j)) = true) ->
             forall j, (j < S k)%nat ->
                transport_failure (env_post E (n_post w + j)) = true).
  { intros k Hk [|j] Hj; [now rewrite Nat.add_0_r|].
    rewrite <- Hshift. apply Hk. lia. }
  exists o, (S posts). eexists. split; [reflexivity|].
  split.
  - rewrite !filter_app, Hnet. cbn [filter is_network app].
    destruct Hcases as [[_ [-> _]] | [k [Hk [-> _]]]].
    + destruct m as [|m].
      * replace (attempt <? max_retries) with false
          by (symmetry; apply Z.ltb_ge; lia). reflexivity.
      * replace (attempt <? max_retries) with true
          by (symmetry; apply Z.ltb_lt; lia). reflexivity.
    + replace (attempt <? max_retries) with true
        by (symmetry; apply Z.ltb_lt; lia). reflexivity.
  - destruct Hcases as [[-> [-> Hfails]] | [k [Hk [-> [Hfails [Hok ->]]]]]].
    + left. split; [reflexivity|]. split; [reflexivity|]. now apply Hall.
    + right. exists (S k). rewrite <- !Hshift.
      split; [lia|]. split; [reflexivity|]. split; [|split; [exact Hok|reflexivity]].
      intros j Hj.
      apply (Hall k); [|exact Hj].
      intros j' Hj'. now apply Hfails.
Qed.

End RetryOutcome.

Lemma single_attempt_failed (r : post_reply) :
  transport_failure r = false -> single_attempt_result r <> Ret false.
Proof.
  destruct r as [sc tx | [ | | | | | | e | ]]; cbn; try discriminate.
  intros ->. now destruct (is_HTTPError e).
Qed.

Lemma single_attempt_raises (r : post_reply) (e : exn) :
  single_attempt_result r = Raise e -> r = PostRaises e /\ is_requests e = false.
Proof.
  destruct r as [sc tx | [ | | | | | | r | ]]; cbn; try discriminate;
    try (intros [= <-]; split; reflexivity).
  destruct (is_HTTPError r); [discriminate|].
  destruct (is_ConnectionError r || is_Timeout r); discriminate.
Qed.

(** How [make_api_request_with_retry] ends, whatever the replies are. *)
Lemma make_api_request_outcome (E : env) (url : string) (p : payload)
    (n timeout : Z) (w : world) :
  exists o posts evs,
    make_api_request_with_retry E url p n timeout w = (o, advance w evs 0 posts)
    /\ filter is_network evs = attempts_with_backoff url p timeout posts
    /\ ((o = Ret false /\ posts = Z.to_nat n
         /\ forall j, (j < Z.to_nat n)%nat ->
                      transport_failure (env_post E (n_post w + j)) = true)
        \/ (exists k, (k < Z.to_nat n)%nat /\ posts = S k
              /\ (forall j, (j < k)%nat ->
                     transport_failure (env_post E (n_post w + j)) = true)
              /\ transport_failure (env_post E (n_post w + k)) = false
              /\ o = single_attempt_result (env_post E (n_post w + k)))).
Proof.
  unfold make_api_request_with_retry, range.
  replace (n + 1 - 1) with n by lia.
  apply retry_loop_outcome. lia.
Qed.

(** X1. Whatever the endpoint answers, [make_api_request_with_retry] makes
    at most [max_retries] POST requests, and what it does on the network is
    these requests with one sleep of two seconds between consecutive ones:
    it never sleeps before the first request or after the last. *)
Theorem X1_retry_is_bounded (E : env) (url : string) (p : payload)
    (n timeout : Z) (w : world) :
  exists o posts evs,
    make_api_request_with_retry E url p n timeout w = (o, advance w evs 0 posts)
    /\ (posts <= Z.to_nat n)%nat
    /\ filter is_network evs = attempts_with_backoff url p timeout posts.
Proof.
  destruct (make_api_request_outcome E url p n timeout w)
    as [o [posts [evs [Hrun [Hnet Hcases]]]]].
  exists o, posts, evs. split; [exact Hrun|]. split; [|exact Hnet].
  destruct Hcases as [[_ [-> _]] | [k [Hk [-> _]]]]; lia.
Qed.

(** X2. [make_api_request_with_retry] returns [False] only when the retries
    are exhausted: it has then made exactly [max_retries] POST requests (none
    when [max_retries] is not positive) and every one of them ended in a
    connection failure or a timeout. *)
Theorem X2_failed_only_when_exhausted (E : env) (url : string) (p : payload)
    (n timeout : Z) (w w' : world) :
  make_api_request_with_retry E url p n timeout w = (Ret false, w') ->
  n_post w' = (n_post w + Z.to_nat n)%nat
  /\ forall j, (j < Z.to_nat n)%nat ->
               transport_failure (env_post E (n_post w + j)) = true.
Proof.
  destruct (make_api_request_outcome E url p n timeout w)
    as [o [posts [evs [Hrun [_ Hcases]]]]].
  rewrite Hrun. intros [= -> <-].
  destruct Hcases as [[_ [-> Hfails]] | [k [_ [_ [_ [Hok Ho]]]]]].
  - split; [apply n_post_advance | exact Hfails].
  - symmetry in Ho. now apply single_attempt_failed in Ho.
Qed.

Lemma X2_failed_only_when_exhausted_witness :
  n_post (snd (make_api_request_with_retry env_timing_out "u" sample_payload
                 3 10 world0)) = 3%nat
  /\ forall j, (j < 3)%nat ->
               transport_failure (env_post env_timing_out j) = true.
Proof.
  apply (X2_failed_only_when_exhausted env_timing_out "u" sample_payload 3 10
           world0).
  vm_compute. reflexivity.
Defined.

(** X3. With a [max_retries] that is not positive the loop of
    [make_api_request_with_retry] has no attempt to make: the function
    reports the failure and returns [False] without any POST request. *)
Theorem X3_no_attempt_without_retries (E : env) (url : string) (p : payload)
    (n timeout : Z) (w : world) :
  n <= 0 ->
  make_api_request_with_retry E url p n timeout w
  = (Ret false, advance w [EvPrint MsgMaxRetriesReached] 0 0).
Proof.
  intros Hn. unfold make_api_request_with_retry, range.
  replace (Z.to_nat (n + 1 - 1)) with 0%nat by lia.
  cbn [range_from retry_loop]. py_run. reflexivity.
Qed.

Lemma X3_no_attempt_without_retries_witness :
  0 <= 0 /\
  make_api_request_with_retry env_accepting "u" sample_payload 0 10 world0
  = (Ret false, advance world0 [EvPrint MsgMaxRetriesReached] 0 0).
Proof.
  split; [lia|].
  apply (X3_no_attempt_without_retries env_accepting "u" sample_payload 0 10 world0).
  lia.
Defined.

Lemma attempts_with_backoff_snoc (url : string) (p : payload) (timeout : Z)
    (m : nat) :
  attempts_with_backoff url p timeout (S m) ++ [EvSleep 2; EvPost url p timeout]
  = attempts_with_backoff url p timeout (S (S m)).
Proof.
  induction m as [|m IH]; [reflexivity|].
  rewrite (attempts_with_backoff_S url p timeout (S m)).
  rewrite (attempts_with_backoff_S url p timeout m) at 1.
  cbn [app]. now rewrite IH.
Qed.

(** X4. When the first [k] attempts fail in transport and attempt [k + 1],
    still within [max_retries], is answered with a status that is not an
    HTTP error, [make_api_request_with_retry] returns [True] after exactly
    [k + 1] POST requests with a sleep of two seconds before each retry. *)
Theorem X4_success_after_transient_failures (E : env) (url : string)
    (p : payload) (n timeout : Z) (w : world) (k : nat)
    (status_code : Z) (text : string) :
  Z.of_nat k < n ->
  (forall j, (j < k)%nat ->
             transport_failure (env_post E (n_post w + j)) = true) ->
  env_post E (n_post w + k) = Response status_code text ->
  (400 <=? status_code) && (status_code <? 600) = false ->
  exists evs,
    make_api_request_with_retry E url p n timeout w
    = (Ret true, advance w evs 0 (S k))
    /\ filter is_network evs = attempts_with_backoff url p timeout (S k)
    /\ In (EvPrint (MsgApiSuccessful text)) evs.
Proof.
  intros Hk Hfail Hreply Hstatus.
  unfold make_api_request_with_retry, range.
  replace (Z.to_nat (n + 1 - 1)) with (k + S (Z.to_nat n - S k))%nat by lia.
  rewrite range_from_app. cbn [range_from].
  destruct (retry_loop_failures E url p n timeout k 1
              ((1 + Z.of_nat k) :: range_from (1 + Z.of_nat k + 1) (Z.to_nat n - S k))
              w Hfail) as [evs [Hrun Hevs]]; [lia|].
  rewrite Hrun. cbn [retry_loop].
  unfold bind at 1. unfold try_except. unfold bind at 1.
  rewrite requests_post_run, n_post_advance, Hreply.
  unfold raise_for_status, bind. cbn [fst snd]. rewrite Hstatus.
  py_run. replace (k + 1)%nat with (S k) by lia.
  eexists. split; [reflexivity|]. split.
  - rewrite !filter_app, Hevs. cbn [filter is_network app].
    replace (1 + Z.of_nat k <=? n) with true by (symmetry; apply Z.leb_le; lia).
    destruct k as [|k]; [reflexivity|].
    replace (0 <? Z.of_nat (S k)) with true by (symmetry; apply Z.ltb_lt; lia).
    cbn [andb]. rewrite <- app_assoc. apply attempts_with_backoff_snoc.
  - apply in_or_app. right. right. left. reflexivity.
Qed.

Lemma X4_success_after_transient_failures_witness :
  exists evs,
    make_api_request_with_retry env_flaky "u" sample_payload 5 10 world0
    = (Ret true, advance world0 evs 0 3)
    /\ filter is_network evs = attempts_with_backoff "u" sample_payload 10 3
    /\ In (EvPrint (MsgApiSuccessful "OK")) evs.
Proof.
  apply (X4_success_after_transient_failures env_flaky "u" sample_payload 5 10
           world0 2 200 "OK").
  - reflexivity.
  - intros [|[|j]] Hj; [reflexivity | reflexivity | lia].
  - reflexivity.
  - reflexivity.
Defined.

(** X5. [make_api_request_with_retry] raises only what [requests.post]
    raised and no clause caught: when it ends with an exception, that is the
    exception of its last POST request, it is not one of [requests], and
    every earlier attempt had failed in transport. *)
Theorem X5_only_foreign_exceptions_escape (E : env) (url : string) (p : payload)
    (n timeout : Z) (w w' : world) (e : exn) :
  make_api_request_with_retry E url p n timeout w = (Raise e, w') ->
  is_requests e = false
  /\ exists k, (k < Z.to_nat n)%nat
       /\ n_post w' = (n_post w + S k)%nat
       /\ env_post E (n_post w + k) = PostRaises e
       /\ forall j, (j < k)%nat ->
                    transport_failure (env_post E (n_post w + j)) = true.
Proof.
  destruct (make_api_request_outcome E url p n timeout w)
    as [o [posts [evs [Hrun [_ Hcases]]]]].
  rewrite Hrun. intros [= -> <-].
  destruct Hcases as [[Ho _] | [k [Hk [-> [Hfails [_ Ho]]]]]]; [discriminate|].
  symmetry in Ho. apply single_attempt_raises in Ho as [Hreply He].
  split; [exact He|]. exists k.
  split; [exact Hk|]. split; [apply n_post_advance|]. split; assumption.
Qed.

Lemma X5_only_foreign_exceptions_escape_witness :
  is_requests OtherError = false
  /\ exists k, (k < 3)%nat
       /\ n_post (snd (make_api_request_with_retry env_broken "u" sample_payload
                         3 10 world0)) = S k
       /\ env_post env_broken k = PostRaises OtherError
       /\ forall j, (j < k)%nat ->
                    transport_failure (env_post env_broken j) = true.
Proof.
  apply (X5_only_foreign_exceptions_escape env_broken "u" sample_payload 3 10
           world0).
  vm_compute. reflexivity.
Defined.

(* ================================================================== *)
(** * FixParser: errors and what is read *)
(* ================================================================== *)

Lemma startswith_nonempty (sentence : string) :
  PyStr.startswith sentence GPGGA = true -> String.eqb sentence "" = false.
Proof. destruct sentence; [discriminate|reflexivity]. Qed.

(** X6. [parse_nmea_sentence] never raises: on every string it returns a
    fix without printing, or returns [None] after at most one diagnostic,
    which is the one of an unsupported sentence or the one of a field that is
    missing or not a number. *)
Theorem X6_parse_never_raises (sentence : string) (w : world) :
  exists r evs,
    parse_nmea_sentence sentence w = (Ret r, advance w evs 0 0)
    /\ (evs = []
        \/ (r = None
            /\ (evs = [EvPrint (MsgUnsupported sentence)]
                \/ exists e, parse_error e = true
                             /\ evs = [EvPrint (MsgErrorParsing e)]))).
Proof.
  destruct (PyStr.startswith sentence GPGGA) eqn:Hprefix.
  - destruct (parse_nmea_sentence_supported sentence Hprefix)
      as [r [evs [Hrun [[fx [-> ->]] | [e [He [-> ->]]]]]]].
    + exists (Some fx), []. split; [apply Hrun | now left].
    + eexists None, _. split; [apply Hrun|]. right. split; [reflexivity|].
      right. now exists e.
  - unfold parse_nmea_sentence. rewrite Hprefix.
    destruct (String.eqb sentence "").
    + exists None, []. split; [|now left].
      unfold try_except, ret. now rewrite advance_nil.
    + eexists None, _. split.
      * unfold try_except. py_run. reflexivity.
      * right. split; [reflexivity|]. now left.
Qed.

Ltac parse_step :=
  match goal with
  | |- context [nth_error ?l ?i] => destruct (nth_error l i) eqn:?
  | |- context [float_of_str ?s] => destruct (float_of_str s) eqn:?
  end; cbv beta iota.

(** X7. A sentence with the prefix and fewer than nine comma-separated
    fields gives no fix: [parse_nmea_sentence] returns [None] after the
    diagnostic of the field that is missing or, when an earlier field is not
    a number, of that field. *)
Theorem X7_too_few_fields (sentence : string) :
  PyStr.startswith sentence GPGGA = true ->
  (List.length (PyStr.split PyStr.comma sentence) < 9)%nat ->
  exists e,
    parse_error e = true
    /\ forall w, parse_nmea_sentence sentence w
                 = (Ret None, advance w [EvPrint (MsgErrorParsing e)] 0 0).
Proof.
  intros Hprefix Hlen.
  assert (H8 : nth_error (PyStr.split PyStr.comma sentence) 8 = None)
    by (apply nth_error_None; lia).
  unfold parse_nmea_sentence.
  rewrite (startswith_nonempty _ Hprefix), Hprefix.
  unfold try_except, bind, index, float, ret, raise. rewrite H8.
  repeat parse_step;
    first [ exists IndexError; split; [reflexivity|]; intros w; py_run; reflexivity
          | exists ValueError; split; [reflexivity|]; intros w; py_run; reflexivity ].
Qed.

Lemma X7_too_few_fields_witness :
  exists e,
    parse_error e = true
    /\ forall w, parse_nmea_sentence "$GPGGA,123519,4807.038,N" w
                 = (Ret None, advance w [EvPrint (MsgErrorParsing e)] 0 0).
Proof.
  apply (X7_too_few_fields "$GPGGA,123519,4807.038,N").
  - reflexivity.
  - vm_compute. lia.
Defined.

(** X8. [parse_nmea_sentence] reads the fields 2, 3, 4, 5 and 8 of a
    sentence with the prefix and nothing else: two such sentences that agree
    on these fields parse alike, whatever their time, fix quality, number of
    satellites, altitude and checksum are. *)
Theorem X8_parse_reads_five_fields (sentence1 sentence2 : string) :
  PyStr.startswith sentence1 GPGGA = true ->
  PyStr.startswith sentence2 GPGGA = true ->
  (forall i, In i [2; 3; 4; 5; 8]%nat ->
             nth_error (PyStr.split PyStr.comma sentence1) i
             = nth_error (PyStr.split PyStr.comma sentence2) i) ->
  forall w, parse_nmea_sentence sentence1 w = parse_nmea_sentence sentence2 w.
Proof.
  intros H1 H2 Hfields w.
  unfold parse_nmea_sentence.
  rewrite (startswith_nonempty _ H1), (startswith_nonempty _ H2), H1, H2.
  unfold try_except, bind, index.
  rewrite (Hfields 2%nat), (Hfields 3%nat), (Hfields 4%nat), (Hfields 5%nat),
    (Hfields 8%nat) by (cbn; tauto).
  reflexivity.
Qed.

Lemma X8_parse_reads_five_fields_witness :
  parse_nmea_sentence sample_sentence world0
  = parse_nmea_sentence bare_sentence world0.
Proof.
  apply (X8_parse_reads_five_fields sample_sentence bare_sentence).
  - reflexivity.
  - reflexivity.
  - intros i [<- | [<- | [<- | [<- | [<- | []]]]]]; reflexivity.
Defined.

(** X9. The hemisphere fields are not validated.  Whenever the latitude,
    longitude and accuracy fields are numbers of the expected shape,
    [parse_nmea_sentence] returns a fix whatever the fields 3 and 5 hold:
    the latitude is negated when field 3 is exactly [S] and the longitude
    when field 5 is exactly [W]; any other content, a lower-case letter or
    nothing at all, leaves the non-negative magnitude. *)
Theorem X9_hemisphere_not_validated (sentence : string) :
  numeric_fields sentence = true ->
  exists latitude longitude accuracy,
    nonneg latitude = true /\ nonneg longitude = true
    /\ forall w,
         parse_nmea_sentence sentence w
         = (Ret (Some (if String.eqb (field 3 sentence) "S"
                       then neg latitude else latitude,
                       if String.eqb (field 5 sentence) "W"
                       then neg longitude else longitude,
                       accuracy)), w).
Proof.
  unfold numeric_fields. intros H.
  repeat match type of H with
         | _ && _ = true => let H' := fresh "H" in apply andb_true_iff in H as [H H']
         end.
  rename H into Hprefix, H3 into Hlen, H2 into Hlat, H1 into Hlon, H0 into Hacc.
  apply Nat.leb_le in Hlen.
  destruct (float_of_ddmm _ Hlat) as [lat_deg [lat_min [Hld [Hld' [Hlm Hlm']]]]].
  destruct (float_of_dddmm _ Hlon) as [lon_deg [lon_min [Hod [Hod' [Hom Hom']]]]].
  destruct (float_of_str_unsigned _ Hacc) as [accuracy [Ha _]].
  exists (add lat_deg (div lat_min (of_int 60))),
         (add lon_deg (div lon_min (of_int 60))), accuracy.
  split; [now apply degrees_nonneg|]. split; [now apply degrees_nonneg|].
  intros w. unfold parse_nmea_sentence, try_except.
  rewrite (startswith_nonempty _ Hprefix), Hprefix.
  unfold bind, index, float, ret.
  rewrite !nth_error_field by lia.
  rewrite Hld, Hlm, Hod, Hom, Ha. reflexivity.
Qed.

Lemma X9_hemisphere_not_validated_witness :
  numeric_fields lowercase_hemispheres_sentence = true /\
  exists latitude longitude accuracy,
    nonneg latitude = true /\ nonneg longitude = true
    /\ forall w,
         parse_nmea_sentence lowercase_hemispheres_sentence w
         = (Ret (Some (latitude, longitude, accuracy)), w).
Proof.
  split; [reflexivity|].
  apply (X9_hemisphere_not_validated lowercase_hemispheres_sentence).
  reflexivity.
Defined.

(** ** SentenceExtractor: what it hands to the parser *)

Lemma split_no_separator (sep : ascii) (s : string) :
  forall line, In line (PyStr.split sep s) -> has_char sep line = false.
Proof.
  induction s as [|c s IH]; cbn [PyStr.split]; intros line Hin.
  - destruct Hin as [<- | []]. reflexivity.
  - destruct (Ascii.eqb c sep) eqn:Hc.
    + destruct Hin as [<- | Hin]; [reflexivity | now apply IH].
    + destruct (PyStr.split sep s) as [|f fs].
      * destruct Hin as [<- | []]. cbn. now rewrite Hc.
      * destruct Hin as [<- | Hin].
        -- cbn. rewrite Hc. apply IH. now left.
        -- apply IH. now right.
Qed.

Lemma find_split {A} (f : A -> bool) (l : list A) (a : A) :
  List.find f l = Some a ->
  exists before after,
    l = before ++ a :: after
    /\ (forall b, In b before -> f b = false)
    /\ f a = true.
Proof.
  induction l as [|x l IH]; cbn [List.find]; [discriminate|].
  destruct (f x) eqn:Hx.
  - intros [= <-]. exists [], l. split; [reflexivity|]. split; [intros b []|exact Hx].
  - intros Hfind. destruct (IH Hfind) as [before [after [-> [Hbefore Ha]]]].
    exists (x :: before), after. split; [reflexivity|]. split; [|exact Ha].
    intros b [<- | Hb]; [exact Hx | now apply Hbefore].
Qed.

(** The extractor returns the first line with the prefix, or the empty
    string when there is none. *)
Lemma filter_nmea_sentence_cases (data : string) :
  let lines := PyStr.split PyStr.newline (PyStr.strip data) in
  (filter_nmea_sentence data = ""%string
   /\ forall line, In line lines -> PyStr.startswith line GPGGA = false)
  \/ (exists before after,
        lines = before ++ filter_nmea_sentence data :: after
        /\ (forall line, In line before -> PyStr.startswith line GPGGA = false)
        /\ PyStr.startswith (filter_nmea_sentence data) GPGGA = true).
Proof.
  intros lines. unfold filter_nmea_sentence. fold lines.
  destruct (List.find (fun line => PyStr.startswith line GPGGA) lines)
    as [line|] eqn:Hfind.
  - right. destruct (find_split _ _ _ Hfind) as [before [after [Hl [Hb Ha]]]].
    now exists before, after.
  - left. split; [reflexivity|].
    intros line Hin. exact (find_none _ _ Hfind line Hin).
Qed.

(** X10. [filter_nmea_sentence] returns the first line of the stripped
    datagram that starts with [$GPGGA], a single line without a line break;
    it returns the empty string exactly when no line starts with [$GPGGA]. *)
Theorem X10_filter_first_gpgga_line (data : string) :
  (filter_nmea_sentence data = ""%string
   /\ forall line, In line (PyStr.split PyStr.newline (PyStr.strip data)) ->
                   PyStr.startswith line GPGGA = false)
  \/ (exists before after,
        PyStr.split PyStr.newline (PyStr.strip data)
        = before ++ filter_nmea_sentence data :: after
        /\ (forall line, In line before -> PyStr.startswith line GPGGA = false)
        /\ PyStr.startswith (filter_nmea_sentence data) GPGGA = true
        /\ has_char PyStr.newline (filter_nmea_sentence data) = false).
Proof.
  destruct (filter_nmea_sentence_cases data)
    as [Hnone | [before [after [Hl [Hb Ha]]]]]; [now left|].
  right. exists before, after.
  split; [exact Hl|]. split; [exact Hb|]. split; [exact Ha|].
  apply (split_no_separator PyStr.newline (PyStr.strip data)).
  rewrite Hl. apply in_elt.
Qed.

(** X11. The parser is only ever given what the extractor returns, and then
    its diagnostic of an unsupported sentence cannot occur: for every
    datagram [parse_nmea_sentence (filter_nmea_sentence data)] returns a fix
    silently, or [None] with the diagnostic of a bad field, or, when no line
    of the datagram starts with [$GPGGA], [None] without printing anything. *)
Theorem X11_unsupported_is_never_printed (data : string) :
  exists r evs,
    (forall w, parse_nmea_sentence (filter_nmea_sentence data) w
               = (Ret r, advance w evs 0 0))
    /\ (evs = []
        \/ exists e, parse_error e = true /\ r = None
                     /\ evs = [EvPrint (MsgErrorParsing e)])
    /\ ((forall line, In line (PyStr.split PyStr.newline (PyStr.strip data)) ->
                      PyStr.startswith line GPGGA = false) ->
        r = None /\ evs = []).
Proof.
  destruct (filter_nmea_sentence_cases data)
    as [[Hempty Hnone] | [before [after [Hl [Hb Hprefix]]]]].
  - exists None, []. rewrite Hempty. split; [|split; [now left | now intros _]].
    intros w. unfold parse_nmea_sentence, try_except. cbn. now rewrite advance_nil.
  - destruct (parse_nmea_sentence_supported _ Hprefix)
      as [r [evs [Hrun Hcases]]].
    exists r, evs. split; [exact Hrun|]. split.
    + destruct Hcases as [[fx [_ ->]] | Hbad]; [now left | now right].
    + intros Hnone. specialize (Hnone (filter_nmea_sentence data)).
      rewrite Hprefix in Hnone. rewrite Hl in Hnone.
      discriminate Hnone. apply in_elt.
Qed.

(* ================================================================== *)
(** * DistanceEvaluator: errors, symmetry and the same position *)
(* ================================================================== *)

Lemma confined_weaken {A} (allowed allowed' : exn -> bool) (m : Py A) :
  (forall e, allowed e = true -> allowed' e = true) ->
  confined allowed m -> confined allowed' m.
Proof.
  intros Hle [o [Hrun Ho]]. exists o. split; [exact Hrun|].
  destruct o; [exact I | now apply Hle].
Qed.

Lemma confined_math_1_error func v : confined math_error (math_1 func false v).
Proof.
  unfold math_1.
  destruct (is_nan (func v) && negb (is_nan v)); [now apply confined_raise|].
  destruct (is_inf (func v) && is_finite v); [now apply confined_raise|].
  apply confined_ret.
Qed.

Lemma confined_float_pow_2_error {libm : Libm} v :
  confined math_error (float_pow_2 v).
Proof.
  unfold float_pow_2.
  repeat match goal with
         | |- confined _ (if ?c then _ else _) => destruct c
         | |- confined _ (ret _) => apply confined_ret
         | |- confined _ (raise _) => now apply confined_raise
         end.
Qed.

Section DistanceErrors.
Context {libm : Libm}.

(** [haversine_distance] returns a distance without printing, or prints
    the diagnostic of an error of the [math] module and returns [None]. *)
Lemma haversine_distance_cases (coord1 coord2 : PyFloat.float * PyFloat.float) :
  (exists distance,
      forall w, haversine_distance coord1 coord2 w = (Ret (Some distance), w))
  \/ (exists e,
        math_error e = true
        /\ forall w, haversine_distance coord1 coord2 w
                     = (Ret None, advance w [EvPrint (MsgErrorHaversine e)] 0 0)).
Proof.
  unfold haversine_distance.
  match goal with
  | |- context [try_except ?body _] => assert (Hbody : confined math_error body)
  end.
  { cbv zeta. cbn [fst snd].
    repeat (apply confined_bind; [|intros ?]);
      first [ apply confined_math_1_error | apply confined_float_pow_2_error
            | apply confined_ret ]. }
  match goal with
  | |- context [try_except ?body _] =>
      assert (Hsome : forall w r w', body w = (Ret r, w') -> r <> None)
  end.
  { intros w0 r w'. cbv zeta. cbn [fst snd]. unfold bind, ret.
    repeat match goal with
           | |- context [let (_, _) := ?m ?w in _] =>
               destruct (m w) as [[?|?] ?]
           end; intros [= <- _]; discriminate. }
  destruct Hbody as [[r|e] [Hrun He]].
  - left. specialize (Hsome world0 r world0 (Hrun world0)).
    destruct r as [distance|]; [|contradiction].
    exists distance. intros w. unfold try_except. now rewrite Hrun.
  - right. exists e. split; [exact He|].
    intros w. unfold try_except. rewrite Hrun.
    unfold except_Exception. py_run. reflexivity.
Qed.

(** X12. [haversine_distance] never raises: it returns a distance without
    printing, or it prints the one diagnostic of a domain error or an
    overflow of the [math] module and returns [None]. *)
Theorem X12_haversine_never_raises (coord1 coord2 : PyFloat.float * PyFloat.float)
    (w : world) :
  (exists distance,
      haversine_distance coord1 coord2 w = (Ret (Some distance), w))
  \/ (exists e,
        math_error e = true
        /\ haversine_distance coord1 coord2 w
           = (Ret None, advance w [EvPrint (MsgErrorHaversine e)] 0 0)).
Proof.
  destruct (haversine_distance_cases coord1 coord2) as [[d Hd] | [e [He Hnone]]].
  - left. exists d. apply Hd.
  - right. exists e. split; [exact He | apply Hnone].
Qed.

(** X13. [has_moved] returns whether the distance exceeds the threshold,
    strictly; when [haversine_distance] has no distance to give, the
    comparison of [None] with the threshold raises [TypeError], after the
    diagnostic of the distance: [has_moved] never answers without a
    distance. *)
Theorem X13_has_moved_needs_a_distance
    (previous_position current_position : PyFloat.float * PyFloat.float)
    (threshold_distance : Z) (w : world) :
  (exists distance,
      haversine_distance previous_position current_position w
      = (Ret (Some distance), w)
      /\ has_moved previous_position current_position threshold_distance w
         = (Ret (gt_int distance threshold_distance), w))
  \/ (exists e,
        math_error e = true
        /\ has_moved previous_position current_position threshold_distance w
           = (Raise TypeError,
              advance w [EvPrint (MsgErrorHaversine e)] 0 0)).
Proof.
  destruct (haversine_distance_cases previous_position current_position)
    as [[d Hd] | [e [He Hnone]]].
  - left. exists d. split; [apply Hd|]. unfold has_moved, bind. now rewrite Hd.
  - right. exists e. split; [exact He|]. unfold has_moved, bind. now rewrite Hnone.
Qed.

End DistanceErrors.

(** ** Symmetry *)

Lemma binary_round_aux_opp (s : bool) (m e : Z) (l : location) :
  binary_round_aux prec emax (negb s) m e l
  = neg (binary_round_aux prec emax s m e l).
Proof.
  unfold binary_round_aux.
  destruct (shr_fexp prec emax m e l) as [mrs' e'].
  destruct (shr_fexp prec emax _ e' loc_Exact) as [mrs'' e''].
  destruct (shr_m mrs''); [reflexivity | | reflexivity].
  destruct (e'' <=? emax - prec); reflexivity.
Qed.

Lemma binary_round_opp (s : bool) (m : positive) (e : Z) :
  binary_round prec emax (negb s) m e = neg (binary_round prec emax s m e).
Proof.
  unfold binary_round. destruct (shl_align m e _) as [mz ez].
  apply binary_round_aux_opp.
Qed.

Lemma neg_involutive (v : PyFloat.float) : neg (neg v) = v.
Proof. destruct v as [s|s| |s m e]; cbn; now rewrite ?negb_involutive. Qed.

Lemma binary_normalize_opp (m e : Z) :
  m <> 0 ->
  binary_normalize prec emax (- m) e false
  = neg (binary_normalize prec emax m e false).
Proof.
  destruct m as [|m|m]; [contradiction| |]; intros _; cbn [Z.opp binary_normalize].
  - apply (binary_round_opp false).
  - change (binary_round prec emax true m e)
      with (binary_round prec emax (negb false) m e).
    rewrite binary_round_opp. now rewrite neg_involutive.
Qed.

(** [y - x] is the opposite of [x - y], except that both are [+0.0] when
    the difference is an exact zero. *)
Lemma sub_swap (x y : PyFloat.float) :
  sub y x = neg (sub x y) \/ (sub x y = zero /\ sub y x = zero).
Proof.
  destruct x as [sx|sx| |sx mx ex], y as [sy|sy| |sy my ey];
    try (left; reflexivity);
    try (destruct sx, sy; cbn; auto; fail);
    try (left; cbn; now rewrite ?negb_involutive).
  unfold sub, SFsub. rewrite (Z.min_comm ey ex).
  set (a := cond_Zopp sx _). set (b := cond_Zopp sy _).
  destruct (Z.eq_dec (a - b) 0) as [Hz|Hnz].
  - right. replace (b - a) with 0 by lia. rewrite Hz. split; reflexivity.
  - left. replace (b - a) with (- (a - b)) by lia.
    now apply binary_normalize_opp.
Qed.

Lemma div_neg (x y : PyFloat.float) : div (neg x) y = neg (div x y).
Proof.
  destruct x as [sx|sx| |sx mx ex], y as [sy|sy| |sy my ey];
    try reflexivity;
    try (cbn; now destruct sx, sy).
  unfold div, neg, SFdiv. cbn [SFopp].
  destruct (SFdiv_core_binary prec emax (Z.pos mx) ex (Z.pos my) ey)
    as [[mz ez] lz].
  replace (xorb (negb sx) sy) with (negb (xorb sx sy)) by now destruct sx, sy.
  apply binary_round_aux_opp.
Qed.

Lemma mul_comm (x y : PyFloat.float) : mul x y = mul y x.
Proof.
  destruct x as [sx|sx| |sx mx ex], y as [sy|sy| |sy my ey];
    try reflexivity;
    try (cbn; now rewrite xorb_comm).
  unfold mul, SFmul. now rewrite xorb_comm, Pos.mul_comm, Z.add_comm.
Qed.

Section Symmetry.
Context {libm : Libm}.
Hypothesis sin_odd : forall v, c_sin (neg v) = neg (c_sin v).

Lemma float_pow_2_neg (v : PyFloat.float) : float_pow_2 (neg v) = float_pow_2 v.
Proof. destruct v as [s|s| |s m e]; reflexivity. Qed.

(** [sin(d / 2) ** 2] *)
Lemma half_chord_neg (d : PyFloat.float) (w : world) :
  bind (math_sin (div (neg d) (of_int 2))) float_pow_2 w
  = bind (math_sin (div d (of_int 2))) float_pow_2 w.
Proof.
  rewrite div_neg. set (v := div d (of_int 2)).
  unfold bind, math_sin, math_1. rewrite sin_odd.
  replace (is_nan (neg (c_sin v))) with (is_nan (c_sin v))
    by now destruct (c_sin v).
  replace (is_inf (neg (c_sin v))) with (is_inf (c_sin v))
    by now destruct (c_sin v).
  replace (is_nan (neg v)) with (is_nan v) by now destruct v.
  replace (is_finite (neg v)) with (is_finite v) by now destruct v.
  destruct (is_nan (c_sin v) && negb (is_nan v)); [reflexivity|].
  destruct (is_inf (c_sin v) && is_finite v); [reflexivity|].
  unfold ret. now rewrite float_pow_2_neg.
Qed.

Lemma half_chord_swap (x y : PyFloat.float) (w : world) :
  bind (math_sin (div (sub y x) (of_int 2))) float_pow_2 w
  = bind (math_sin (div (sub x y) (of_int 2))) float_pow_2 w.
Proof.
  destruct (sub_swap x y) as [-> | [-> ->]]; [apply half_chord_neg | reflexivity].
Qed.

Lemma math_1_cases (func : PyFloat.float -> PyFloat.float) (v : PyFloat.float) :
  math_1 func false v = ret (func v) \/ math_1 func false v = raise ValueError.
Proof.
  unfold math_1.
  destruct (is_nan (func v) && negb (is_nan v)); [now right|].
  destruct (is_inf (func v) && is_finite v); [now right | now left].
Qed.


Lemma bind_assoc {A B C} (m : Py A) (f : A -> Py B) (k : B -> Py C) (w : world) :
  bind (bind m f) k w = bind m (fun a => bind (f a) k) w.
Proof. unfold bind. now destruct (m w) as [[a|e] w']. Qed.

Lemma bind_ext {A B} (m : Py A) (k1 k2 : A -> Py B) (w : world) :
  (forall a w', k1 a w' = k2 a w') -> bind m k1 w = bind m k2 w.
Proof. intros H. unfold bind. destruct (m w) as [[a|e] w']; [apply H | reflexivity]. Qed.

Lemma half_chord_swap_then {B} (x y : PyFloat.float) (k : PyFloat.float -> Py B)
    (w : world) :
  bind (math_sin (div (sub y x) (of_int 2))) (fun s => bind (float_pow_2 s) k) w
  = bind (math_sin (div (sub x y) (of_int 2))) (fun s => bind (float_pow_2 s) k) w.
Proof.
  rewrite <- !bind_assoc. unfold bind at 1. rewrite half_chord_swap. reflexivity.
Qed.

(** X14. When the sine of the C library is odd, [haversine_distance] is
    symmetric to the last bit: both orders of the two positions give the same
    distance, or the same diagnostic and [None]. *)
Theorem X14_haversine_symmetric (coord1 coord2 : PyFloat.float * PyFloat.float)
    (w : world) :
  haversine_distance coord1 coord2 w = haversine_distance coord2 coord1 w.
Proof.
  destruct coord1 as [lat1 lon1], coord2 as [lat2 lon2].
  unfold haversine_distance. cbn [fst snd].
  match goal with
  | |- try_except ?b1 ?h w = try_except ?b2 _ w =>
      assert (Hbody : b1 w = b2 w);
        [|unfold try_except; rewrite Hbody; reflexivity]
  end.
  rewrite (half_chord_swap_then (radians lat1) (radians lat2)).
  apply bind_ext; intros sin_dlat w1. apply bind_ext; intros sin_dlat_2 w2.
  unfold math_cos.
  destruct (math_1_cases c_cos (radians lat1)) as [H1|H1],
           (math_1_cases c_cos (radians lat2)) as [H2|H2];
    rewrite H1, H2; try reflexivity.
  unfold bind at 1 2. unfold ret at 1 2.
  unfold bind at 5 6. unfold ret at 3 4.
  rewrite (half_chord_swap_then (radians lon1) (radians lon2)).
  apply bind_ext; intros sin_dlon w3. apply bind_ext; intros sin_dlon_2 w4.
  now rewrite (mul_comm (c_cos (radians lat1))).
Qed.

End Symmetry.

Lemma X14_haversine_symmetric_witness :
  haversine_distance (libm := small_angle) (zero, zero) greenwich world0
  = haversine_distance (libm := small_angle) greenwich (zero, zero) world0.
Proof.
  apply (X14_haversine_symmetric (libm := small_angle)).
  intros v. reflexivity.
Defined.

Section SamePosition.
Context {libm : Libm}.
Hypothesis libm_C99 : C99 libm.

(** The distance from a position with finite coordinates to itself. *)
Lemma haversine_distance_same (latitude longitude : PyFloat.float) :
  valid latitude = true -> is_finite latitude = true ->
  valid longitude = true -> is_finite longitude = true ->
  distance_is (latitude, longitude) (latitude, longitude) zero.
Proof.
  intros Hv1 Hf1 Hv2 Hf2 w.
  pose proof (radians_finite latitude Hv1 Hf1) as Hlat.
  pose proof (radians_finite longitude Hv2 Hf2) as Hlon.
  unfold haversine_distance. cbn [fst snd].
  rewrite !sub_diag by assumption.
  change (div zero (of_int 2)) with zero.
  unfold try_except, bind.
  rewrite (math_sin_zero libm_C99). cbv beta iota.
  change (float_pow_2 zero w) with (Ret zero, w). cbv beta iota.
  rewrite (math_cos_finite libm_C99) by exact Hlat. cbv beta iota.
  rewrite (math_cos_finite libm_C99) by exact Hlat. cbv beta iota.
  rewrite (math_sin_zero libm_C99). cbv beta iota.
  change (float_pow_2 zero w) with (Ret zero, w). cbv beta iota.
  rewrite (haversine_a_zero libm_C99 _ Hlat).
  reflexivity.
Qed.

(** X15. A fix at the previous position has not moved, whatever the
    threshold is, unless the threshold is negative: for a position with
    finite coordinates [has_moved (p, p, threshold)] is [False] when
    [threshold >= 0] and [True] when [threshold < 0]. *)
Theorem X15_same_position_has_not_moved (latitude longitude : PyFloat.float)
    (threshold : Z) (w : world) :
  valid latitude = true -> is_finite latitude = true ->
  valid longitude = true -> is_finite longitude = true ->
  has_moved (latitude, longitude) (latitude, longitude) threshold w
  = (Ret (threshold <? 0), w).
Proof.
  intros Hv1 Hf1 Hv2 Hf2.
  unfold has_moved, bind.
  rewrite (haversine_distance_same latitude longitude Hv1 Hf1 Hv2 Hf2 w).
  now destruct threshold.
Qed.

End SamePosition.

Lemma X15_same_position_has_not_moved_witness :
  has_moved (libm := small_angle) greenwich greenwich 50 world0
  = (Ret false, world0).
Proof.
  apply (X15_same_position_has_not_moved (libm := small_angle) small_angle_C99
           (fst greenwich) (snd greenwich) 50 world0); reflexivity.
Defined.

(* ================================================================== *)
(** * Listener: runs of the loop *)
(* ================================================================== *)

Section ListenerRuns.
Context {libm : Libm}.
Variable E : env.
Variable cfg : config.

(** What an iteration does to the world: it appends events, reads the clock
    at most once and sends at most one POST request, and none without having
    read the clock. *)
Lemma loop_body_world (st : state) (d : datagram) (w : world) o w' :
  loop_body E cfg st d w = (o, w') ->
  exists evs times posts,
    w' = advance w evs times posts /\ (times <= 1)%nat /\ (posts <= times)%nat.
Proof.
  intros Hrun. apply loop_body_iteration in Hrun.
  inversion Hrun as
    [ | | | | | | |
    | ? ? ? ? ? ? ? ? _ _ _ _ _ ? ? ? _ _
    | ? ? ? ? ? ? ? ? o1 ? _ _ _ _ _ ? ? ? ? _ _ Hapi ];
    subst;
    try (exists [], 0%nat, 0%nat; rewrite advance_nil; split; [reflexivity|lia]);
    try (eexists _, _, _; split; [reflexivity|lia]).
  match type of Hapi with
  | make_api_request_with_retry _ ?url ?p0 _ ?t ?w0 = _ =>
      destruct (make_api_request_once E url p0 t w0) as [evs [Hone _]]
  end.
  rewrite Hone in Hapi. injection Hapi as _ <-.
  rewrite advance_advance. eexists _, _, _. split; [reflexivity|lia].
Qed.

(** What an iteration that completes does to the state: nothing, or it
    stores the accepted fix of its datagram and its reading of the clock. *)
Lemma loop_body_state (st : state) (d : datagram) (w : world) ctl st' w' :
  loop_body E cfg st d w = (Ret (ctl, st'), w') ->
  st' = st
  \/ (exists data latitude longitude accuracy,
        d = Text data
        /\ fix_of data latitude longitude accuracy
        /\ le_int accuracy 100 = true
        /\ st' = reported latitude longitude (env_time E (n_time w))
        /\ ctl = Continue
        /\ n_time w' = S (n_time w)
        /\ n_post w' = S (n_post w)).
Proof.
  intros Hrun. apply loop_body_iteration in Hrun.
  inversion Hrun as
    [ | | | | | | |
    | ? ? ? ? ? ? ? ? Hfix Hacc _ _ _ ? ? ? _ _
    | ? ? ? ? ? ? ? ? o1 ? Hfix Hacc _ _ _ ? ? ? ? _ _ Hapi Hd Hw Ho ];
    subst; try (left; reflexivity).
  destruct o1 as [[|]|e]; [| |discriminate]; injection Ho as <- <-.
  - right. exists data, latitude, longitude, accuracy.
    match type of Hapi with
    | make_api_request_with_retry _ ?url ?p0 _ ?t ?w0 = _ =>
        destruct (make_api_request_once E url p0 t w0) as [evs [Hone _]]
    end.
    rewrite Hone in Hapi. injection Hapi as _ <-.
    rewrite !n_time_advance, !n_post_advance.
    repeat (split; [first [reflexivity | assumption]|]). split; lia.
  - now left.
Qed.

Lemma listen_world (datagrams : list datagram) :
  forall (st : state) (w : world) o w',
    listen E cfg st datagrams w = (o, w') ->
    exists evs times posts,
      w' = advance w evs times posts
      /\ (times <= List.length datagrams)%nat /\ (posts <= times)%nat.
Proof.
  induction datagrams as [|d rest IH]; intros st w o w'.
  { intros [= <- <-]. exists [], 0%nat, 0%nat. rewrite advance_nil.
    split; [reflexivity|cbn; lia]. }
  cbn [listen]. unfold bind at 1.
  destruct (loop_body E cfg st d w) as [[[ctl st1]|e] w1] eqn:Hbody;
    destruct (loop_body_world _ _ _ _ _ Hbody) as [evs [t [p [-> [Ht Hp]]]]].
  - destruct ctl.
    + intros Hrest.
      destruct (IH _ _ _ _ Hrest) as [evs' [t' [p' [-> [Ht' Hp']]]]].
      rewrite advance_advance. eexists _, _, _.
      split; [reflexivity|cbn [List.length]; lia].
    + intros [= <- <-]. eexists _, _, _. split; [reflexivity|cbn [List.length]; lia].
  - intros [= <- <-]. eexists _, _, _. split; [reflexivity|cbn [List.length]; lia].
Qed.

(** The state with which the loop ends is the one it began with, or the
    accepted fix of one of the datagrams with a reading of the clock taken
    during the loop. *)
Lemma listen_state (datagrams : list datagram) :
  forall (st : state) (w : world) st' w',
    listen E cfg st datagrams w = (Ret st', w') ->
    st' = st
    \/ (exists data latitude longitude accuracy k,
          In (Text data) datagrams
          /\ fix_of data latitude longitude accuracy
          /\ le_int accuracy 100 = true
          /\ st' = reported latitude longitude (env_time E k)
          /\ (n_time w <= k < n_time w')%nat).
Proof.
  induction datagrams as [|d rest IH]; intros st w st' w'.
  { intros [= <- <-]. now left. }
  cbn [listen]. unfold bind at 1.
  destruct (loop_body E cfg st d w) as [[[ctl st1]|e] w1] eqn:Hbody;
    [|discriminate].
  destruct (loop_body_world _ _ _ _ _ Hbody) as [evs [t [p [Hw1 [Ht Hp]]]]].
  destruct (loop_body_state _ _ _ _ _ _ Hbody)
    as [-> | [data [lat [lon [acc [-> [Hfix [Hacc [-> [-> [Hclock _]]]]]]]]]]].
  - destruct ctl; [|intros [= <- <-]; now left].
    intros Hrest.
    destruct (IH _ _ _ _ Hrest)
      as [-> | [data [lat [lon [acc [k [Hin [Hfix [Hacc [-> Hk]]]]]]]]]];
      [now left|].
    right. exists data, lat, lon, acc, k.
    split; [now right|]. repeat (split; [first [reflexivity | assumption]|]).
    subst w1. rewrite n_time_advance in Hk. lia.
  - intros Hrest.
    destruct (listen_world _ _ _ _ _ Hrest) as [evs' [t' [p' [Hw' _]]]].
    assert (Hlater : (n_time w1 <= n_time w')%nat)
      by (rewrite Hw', n_time_advance; lia).
    destruct (IH _ _ _ _ Hrest)
      as [-> | [data' [lat' [lon' [acc' [k [Hin [Hfix' [Hacc' [-> Hk]]]]]]]]]].
    + right. exists data, lat, lon, acc, (n_time w).
      split; [now left|]. repeat (split; [first [reflexivity | assumption]|]). lia.
    + right. exists data', lat', lon', acc', k.
      split; [now right|]. repeat (split; [first [reflexivity | assumption]|]). lia.
Qed.


(** An iteration that reaches its decision: the fix is accepted, projected
    and at a known distance, and the elapsed time is finite.  When a report
    is due it logs the payload and makes the one POST request, whose reply
    decides the state; when none is due it ends at once. *)
Lemma loop_body_decided (st : state) (data : string) (w : world)
    latitude longitude accuracy easting northing distance o w' :
  fix_of data latitude longitude accuracy ->
  le_int accuracy 100 = true ->
  env_transform E longitude latitude = Ret (easting, northing) ->
  is_finite easting && is_finite northing = true ->
  distance_is (previous_position st) (latitude, longitude) distance ->
  is_finite (sub (env_time E (n_time w)) (last_request_time st)) = true ->
  loop_body E cfg st (Text data) w = (o, w') ->
  let current_time := env_time E (n_time w) in
  let has_moved_flag := gt_int distance (distance_limit cfg) in
  let p := report_payload cfg (floor easting) (floor northing) in
  if due cfg has_moved_flag (sub current_time (last_request_time st))
  then
    exists evs,
      w' = advance w
             (before_decision st latitude longitude current_time has_moved_flag
              ++ EvLogInfo (making_request has_moved_flag p)
                 :: EvPost (api_url cfg) p default_timeout_seconds :: evs) 1 1
      /\ forallb is_print evs = true
      /\ o = match single_attempt_result (env_post E (n_post w)) with
             | Ret result =>
                 Ret (Continue,
                      if result then reported latitude longitude current_time
                      else st)
             | Raise e => Raise e
             end
  else
    o = Ret (Continue, st)
    /\ w' = advance w
              (before_decision st latitude longitude current_time has_moved_flag)
              1 0.
Proof.
  intros Hfix Hacc Htr Hfin Hdist Helapsed Hrun.
  apply loop_body_iteration in Hrun.
  inversion Hrun as
    [ | | ? ? ? Hd Hnone | ? ? ? ? ? Hfix' Hacc'
    | ? ? ? ? ? ? Hfix' _ Htr' | ? ? ? ? ? ? ? ? Hfix' _ Htr' Hfin'
    | ? ? ? ? ? ? ? ? Hfix' _ Htr' _ Hnone
    | ? ? ? ? ? ? ? ? ? Hfix' _ Htr' _ Hdist' Hel'
    | ? ? ? ? ? ? ? ? Hfix' _ Htr' _ Hdist' ? ? ? _ Hdue
    | ? ? ? ? ? ? ? ? o1 ? Hfix' _ Htr' _ Hdist' ? ? ? ? _ Hdue Hapi ];
    subst;
    try (destruct Hfix as [Hne _]; contradiction);
    try (destruct Hfix as [_ Hp]; specialize (Hp world0);
         rewrite Hnone in Hp; discriminate);
    destruct (fix_of_unique _ _ _ _ _ _ _ Hfix Hfix') as [<- [<- <-]];
    try congruence;
    rewrite Htr in Htr'; try discriminate;
    injection Htr' as <- <-; try congruence.
  - specialize (Hdist world0). rewrite Hnone in Hdist. discriminate.
  - specialize (Hdist world0). rewrite Hdist' in Hdist. injection Hdist as ->.
    repeat match goal with x := _ |- _ => subst x end.
    cbv zeta. rewrite Hdue. split; reflexivity.
  - specialize (Hdist world0). rewrite Hdist' in Hdist. injection Hdist as ->.
    repeat match goal with x := _ |- _ => subst x end.
    cbv zeta. rewrite Hdue.
    match type of Hapi with
    | make_api_request_with_retry _ ?url ?p0 _ ?t ?w0 = _ =>
        destruct (make_api_request_once E url p0 t w0) as [evs [Hone Hprints]]
    end.
    rewrite Hone in Hapi. injection Hapi as <- <-.
    rewrite advance_advance, (Nat.add_0_r (n_post w)).
    exists evs. split; [reflexivity|]. split; [exact Hprints|reflexivity].
Qed.

End ListenerRuns.

Lemma prints_hold_no_post (evs : list event) url p timeout :
  forallb is_print evs = true -> ~ In (EvPost url p timeout) evs.
Proof.
  intros Hprints Hin.
  rewrite forallb_forall in Hprints. now apply Hprints in Hin.
Qed.

Lemma parse_prints_hold_no_post (evs : list event) url p timeout :
  forallb is_parse_print evs = true -> ~ In (EvPost url p timeout) evs.
Proof.
  intros Hprints Hin.
  rewrite forallb_forall in Hprints. now apply Hprints in Hin.
Qed.

Section ListenerProperties.
Context {libm : Libm}.
Variable E : env.
Variable cfg : config.


(** X17. [main] reads the clock once at start-up and then at most once for
    each datagram, and it sends at most one POST request for each reading
    of the clock in the loop: never more than one report per datagram. *)
Theorem X17_one_report_per_datagram (datagrams : list datagram) (w : world) :
  exists o evs times posts,
    main E cfg datagrams w = (o, advance w evs (S times) posts)
    /\ (times <= List.length datagrams)%nat
    /\ (posts <= times)%nat.
Proof.
  unfold main. unfold bind at 1. rewrite time_time_run.
  unfold bind at 1. unfold logging_info. rewrite emit_run, advance_advance.
  match goal with
  | |- context [listen E cfg ?st datagrams ?w1] =>
      destruct (listen E cfg st datagrams w1) as [o w'] eqn:Hrun
  end.
  destruct (listen_world E cfg _ _ _ _ _ Hrun) as [evs [t [p [-> [Ht Hp]]]]].
  rewrite advance_advance. exists o. eexists. exists t, p.
  split; [|split; assumption]. reflexivity.
Qed.

(** The loop stops at the first empty datagram. *)
Lemma listen_stops_at_empty (before rest : list datagram) :
  forall (st : state) (w : world),
    listen E cfg st (before ++ Text "" :: rest) w = listen E cfg st before w.
Proof.
  induction before as [|d before IH]; intros st w.
  - reflexivity.
  - cbn [app listen]. unfold bind.
    destruct (loop_body E cfg st d w) as [[[[|] st1]|e] w1];
      [apply IH | reflexivity | reflexivity].
Qed.

(** X18. An empty datagram ends [main]: what arrives after it is never
    read, and the run is the run on the datagrams before it. *)
Theorem X18_empty_datagram_ends_main (before rest : list datagram) (w : world) :
  main E cfg (before ++ Text "" :: rest) w = main E cfg before w.
Proof.
  unfold main, bind.
  destruct (time_time E w) as [[t|e] w1]; [|reflexivity].
  destruct (logging_info _ w1) as [[u|e] w2]; [|reflexivity].
  apply listen_stops_at_empty.
Qed.

(** X19. The position that [main] holds when it returns is the start
    position [(0.0, 0.0)] with the time of the start, or the position of an
    accepted fix (accuracy at most 100) of one of the datagrams together
    with a reading of the clock that was taken in the loop: the two
    variables are never set from anything else, and never one without the
    other. *)
Theorem X19_state_comes_from_an_accepted_fix (datagrams : list datagram)
    (w w' : world) (st' : state) :
  main E cfg datagrams w = (Ret st', w') ->
  st' = {| previous_position := (zero, zero);
           last_request_time := env_time E (n_time w) |}
  \/ (exists data latitude longitude accuracy k,
        In (Text data) datagrams
        /\ fix_of data latitude longitude accuracy
        /\ le_int accuracy 100 = true
        /\ st' = reported latitude longitude (env_time E k)
        /\ (n_time w < k < n_time w')%nat).
Proof.
  unfold main. unfold bind at 1. rewrite time_time_run.
  unfold bind at 1. unfold logging_info. rewrite emit_run, advance_advance.
  intros Hrun.
  destruct (listen_state E cfg _ _ _ _ _ Hrun)
    as [-> | [data [lat [lon [acc [k [Hin [Hfix [Hacc [-> Hk]]]]]]]]]];
    [now left|].
  right. exists data, lat, lon, acc, k.
  repeat (split; [first [reflexivity | assumption]|]).
  rewrite n_time_advance in Hk. lia.
Qed.

(** X20. What is sent.  Every POST request of an iteration goes to the
    configured URL with the timeout of ten seconds, and its payload holds
    the floors of the easting and northing that the projection returned for
    the (longitude, latitude) of the fix of the datagram, the radio
    identifier and the token of the configuration, and the validity
    ["360"]. *)
Theorem X20_what_is_sent (st : state) (d : datagram) (w : world) :
  exists o evs times posts,
    loop_body E cfg st d w = (o, advance w evs times posts)
    /\ forall url p timeout,
         In (EvPost url p timeout) evs ->
         url = api_url cfg /\ timeout = 10
         /\ exists data latitude longitude accuracy easting northing,
              d = Text data
              /\ fix_of data latitude longitude accuracy
              /\ env_transform E longitude latitude = Ret (easting, northing)
              /\ p = {| payload_x := floor easting;
                        payload_y := floor northing;
                        payload_radioId := radio_id cfg;
                        payload_validFor := "360";
                        payload_token := config_token cfg |}.
Proof.
  destruct (loop_body E cfg st d w) as [o w'] eqn:Hrun.
  exists o. apply loop_body_iteration in Hrun.
  inversion Hrun as
    [ | | ? ? evs _ _ Hprints | 
    | | 
    | ? ? ? ? ? ? ? evs _ _ _ _ _ Hprints
    | 
    | 
    | ? ? ? ? ? ? ? ? o1 ? Hfix _ Htr _ _ ? ? ? ? _ _ Hapi ];
    subst;
    try (exists [], 0%nat, 0%nat; split; [now rewrite advance_nil|];
         intros u q tm []);
    try (eexists _, _, _; split; [reflexivity|]; intros u q tm Hin;
         cbn in Hin;
         repeat match type of Hin with
                | _ \/ _ => destruct Hin as [Hin | Hin]; [discriminate Hin|]
                | False => contradiction
                end;
         first [ now apply parse_prints_hold_no_post in Hin
               | now apply prints_hold_no_post in Hin ]).
  match type of Hapi with
  | make_api_request_with_retry _ ?url ?p0 _ ?t ?w0 = _ =>
      destruct (make_api_request_once E url p0 t w0) as [evs [Hone Hprints]]
  end.
  rewrite Hone in Hapi. injection Hapi as _ <-.
  rewrite advance_advance. eexists _, _, _. split; [reflexivity|].
  intros u q tm Hin. apply in_app_or in Hin as [Hin | Hin].
  { cbn in Hin.
    repeat match type of Hin with
           | _ \/ _ => destruct Hin as [Hin | Hin]; [discriminate Hin|]
           | False => contradiction
           end. }
  destruct Hin as [Hin | Hin]; [|now apply prints_hold_no_post in Hin].
  injection Hin as <- <- <-.
  split; [reflexivity|]. split; [reflexivity|].
  exists data, latitude, longitude, accuracy, easting, northing.
  repeat (split; [first [reflexivity | assumption]|]). reflexivity.
Qed.

End ListenerProperties.

Section StationaryReceiver.
Context {libm : Libm}.
Hypothesis libm_C99 : C99 libm.
Variable E : env.
Variable cfg : config.

(** X21. A receiver that stands still reports at the stationary rate.  When
    the accepted fix of a datagram is the position that was last reported and
    [distance_limit] is not negative, the fix has not moved, and the
    iteration sends a POST request exactly when the elapsed time has reached
    [stationary_time_limit]; [moving_time_limit] plays no part. *)
Theorem X21_stationary_receiver (st : state) (data : string) (w : world)
    latitude longitude accuracy easting northing o w' :
  previous_position st = (latitude, longitude) ->
  fix_of data latitude longitude accuracy ->
  le_int accuracy 100 = true ->
  valid latitude = true -> is_finite latitude = true ->
  valid longitude = true -> is_finite longitude = true ->
  env_transform E longitude latitude = Ret (easting, northing) ->
  is_finite easting && is_finite northing = true ->
  0 <= distance_limit cfg ->
  is_finite (sub (env_time E (n_time w)) (last_request_time st)) = true ->
  loop_body E cfg st (Text data) w = (o, w') ->
  let due_now :=
    ge_int (sub (env_time E (n_time w)) (last_request_time st))
           (stationary_time_limit cfg) in
  n_post w' = (n_post w + if due_now then 1 else 0)%nat
  /\ (due_now = false -> o = Ret (Continue, st)).
Proof.
  intros Hprev Hfix Hacc Hv1 Hf1 Hv2 Hf2 Htr Hfin Hlimit Helapsed Hrun due_now.
  pose proof (haversine_distance_same libm_C99 latitude longitude Hv1 Hf1 Hv2 Hf2)
    as Hdist.
  rewrite <- Hprev in Hdist at 1.
  pose proof (loop_body_decided E cfg st data w latitude longitude accuracy
                easting northing zero o w' Hfix Hacc Htr Hfin Hdist Helapsed Hrun)
    as Hdecided.
  cbv zeta in Hdecided.
  assert (Hstill : gt_int zero (distance_limit cfg) = false).
  { unfold gt_int, compare_int, zero.
    destruct (Z.compare_spec 0 (distance_limit cfg)); try reflexivity; lia. }
  rewrite Hstill in Hdecided. cbn [due] in Hdecided. fold due_now in Hdecided.
  destruct due_now.
  - destruct Hdecided as [evs [-> _]].
    split; [apply n_post_advance | discriminate].
  - destruct Hdecided as [-> ->].
    split; [apply n_post_advance | reflexivity].
Qed.

End StationaryReceiver.

(** ** The properties of the loop at the sample datagram *)


Lemma X19_state_comes_from_an_accepted_fix_witness :
  let datagrams :=
    [Text sample_datagram; Text unsupported_datagram; Text ""] in
  let st' := reported sample_latitude sample_longitude (of_int 1100) in
  st' = {| previous_position := (zero, zero);
           last_request_time := env_time env_accepting (n_time world0) |}
  \/ (exists data latitude longitude accuracy k,
        In (Text data) datagrams
        /\ fix_of data latitude longitude accuracy
        /\ le_int accuracy 100 = true
        /\ st' = reported latitude longitude (env_time env_accepting k)
        /\ (n_time world0 < k
            < n_time (snd (main (libm := small_angle) env_accepting
                             sample_config datagrams world0)))%nat).
Proof.
  apply (X19_state_comes_from_an_accepted_fix (libm := small_angle)
           env_accepting sample_config
           [Text sample_datagram; Text unsupported_datagram; Text ""] world0).
  vm_compute. reflexivity.
Defined.

Lemma X21_stationary_receiver_witness :
  n_post (snd (loop_body (libm := small_angle) env_accepting sample_config
                 sample_report_state (Text sample_datagram) world0))
  = 1%nat.
Proof.
  apply (X21_stationary_receiver (libm := small_angle) small_angle_C99
           env_accepting sample_config sample_report_state sample_datagram world0
           sample_latitude sample_longitude sample_accuracy
           (of_int 530000) (of_int 180000)
           (fst (loop_body (libm := small_angle) env_accepting sample_config
                   sample_report_state (Text sample_datagram) world0))
           (snd (loop_body (libm := small_angle) env_accepting sample_config
                   sample_report_state (Text sample_datagram) world0)));
    try reflexivity.
  - exact sample_fix.
  - vm_compute. discriminate.
Defined.
